(** * persistent-computations: the recovery engine, embedded and verified

    Sources embedded here:
    - [src/persistent-computation-context.js]  ([PersistentComputationContext])
    - [src/persistent-computation.js]          ([PersistentComputation], [step])
    - [src/errors.js]                          ([ComputationFailedError])
    - [tests/utils.js]                         (the test computations, used as examples)

    Modelling conventions.
    - JavaScript values are the inductive [JsValue]; [truthy] is ToBoolean.
    - A [throw] is the [Throw] completion; [await] is sequencing (the code is
      strictly sequential, every promise is awaited where it is created).
    - [recoveryData.computations], a plain JS object used as a map from
      class name to an array, is a [gmap string (list JsValue)] of its own
      properties. A read [computations[name]] goes through the prototype
      chain ([read_computations]): a name the object does not own reads as
      the member of [Object.prototype] of that name, and as [undefined]
      when there is none.
    - What the transformer decodes is a recovery-data object or one of the
      falsy values ([Decoded]); other decoded values are outside the model.
    - A [run] method ([Body]) returns, throws, awaits [this.step(fn)] and
      goes on with the way the step completed (so it can catch what a step
      throws), and reads the getters [hasRecoveryData] and
      [currentStepIndex] of its instance. It reaches the context through
      [step] only. A callback [fn] returns a value or throws, and touches
      neither the context nor the transport. Step results are values: a
      [run] method that mutates an object a step gave it, and with it the
      element of the stored array, is outside the model.
    - The injected capabilities ([options.transport], [options.transformer])
      and the two library functions the code calls ([fast-deep-equal], the
      template literal's ToString) are the fields of the class [Host].
      [options.recoveryDataLocation] is the location as the constructor
      resolved it.
    - Calls to the transport and to step callbacks are recorded in a trace,
      the way the tests count them with [mock.fn].
    - Logger calls ([debug], [verbose]) change no state and are left out. *)

From Stdlib Require Import ZArith.
From stdpp Require Import base option list strings pretty gmap.

Local Open Scope string_scope.
Local Open Scope list_scope.
Local Open Scope nat_scope.
Set Warnings "-register-all".

(** ** JavaScript values *)

Inductive JsValue :=
| VUndefined
| VNull
| VBool (b : bool)
| VNum (n : Z)
| VNegZero
| VNaN
| VBigInt (n : Z)
| VStr (s : string)
| VArr (items : list JsValue)
| VObj (props : list (string * JsValue))
| VError (name message : string).

(** ToBoolean: what [if (x)] and [!x] test. *)
Definition truthy (v : JsValue) : bool :=
  match v with
  | VUndefined | VNull | VNegZero | VNaN => false
  | VBool b => b
  | VNum n | VBigInt n => negb (n =? 0)%Z
  | VStr s => match s with EmptyString => false | _ => true end
  | VArr _ | VObj _ | VError _ _ => true
  end.

(** The eight falsy values, as the recovery test lists them:
    [null, undefined, false, '', 0, BigInt(0), -0, NaN]. *)
Inductive Falsy :=
| FNull | FUndefined | FFalse | FEmptyString | FZero | FBigIntZero | FNegZero | FNaN.

Definition falsy_value (f : Falsy) : JsValue :=
  match f with
  | FNull => VNull
  | FUndefined => VUndefined
  | FFalse => VBool false
  | FEmptyString => VStr ""
  | FZero => VNum 0
  | FBigIntZero => VBigInt 0
  | FNegZero => VNegZero
  | FNaN => VNaN
  end.

(** Completion of a call: it returns, or it throws. *)
Inductive completion (E A : Type) :=
| Normal (a : A)
| Throw (e : E).
Arguments Normal {E A} a.
Arguments Throw {E A} e.

Definition TypeError (message : string) : JsValue := VError "TypeError" message.

(** Own-property read on a plain object. *)
Fixpoint get_prop (key : string) (props : list (string * JsValue)) : JsValue :=
  match props with
  | [] => VUndefined
  | (k, v) :: rest => if String.eqb k key then v else get_prop key rest
  end.

(** [error.message]: throws on [null] and [undefined], reads the property
    of an object, and is [undefined] on every other primitive. *)
Definition message_of (error : JsValue) : completion JsValue JsValue :=
  match error with
  | VUndefined =>
      Throw (TypeError "Cannot read properties of undefined (reading 'message')")
  | VNull =>
      Throw (TypeError "Cannot read properties of null (reading 'message')")
  | VError _ message => Normal (VStr message)
  | VObj props => Normal (get_prop "message" props)
  | _ => Normal VUndefined
  end.

(** ** Computations (persistent-computation.js) *)

(** A step callback [fn]: [fn_id] identifies it in the trace, [fn_call] is
    what calling it yields. *)
Record StepFn := {
  fn_id : nat;
  fn_call : completion JsValue JsValue;
}.

(** The body of a subclass's [run(input)]. It returns or throws; it awaits
    [this.step(fn)] and goes on with how the step completed, the value it
    gave or, inside a [try], what it threw; it reads [this.hasRecoveryData]
    or [this.currentStepIndex] and goes on with what the getter gave. *)
Inductive Body :=
| Return (v : JsValue)
| Raise (e : JsValue)
| TryStep (fn : StepFn) (k : completion JsValue JsValue -> Body)
| GetHasRecoveryData (k : bool -> Body)
| GetCurrentStepIndex (k : nat -> Body).

(** [await this.step(fn)] outside any [try]: what the step throws, the
    [run] method throws. *)
Definition AwaitStep (fn : StepFn) (k : JsValue -> Body) : Body :=
  TryStep fn (fun outcome =>
                match outcome with
                | Normal v => k v
                | Throw e => Raise e
                end).

(** A subclass of [PersistentComputation]: [class_name] is what
    [instance.constructor.name] evaluates to. *)
Record ComputationClass := {
  class_name : string;
  run_method : JsValue -> Body;
}.

(** An instance: the private fields [#hasRecoveryData] and
    [#currentStepIndex] of the class. *)
Record PersistentComputation := {
  class_of : ComputationClass;
  hasRecoveryDataFlag : bool;
  currentStepIndex : nat;
}.

(** The base class itself: its [run] always throws. *)
Definition PersistentComputationBase : ComputationClass := {|
  class_name := "PersistentComputation";
  run_method := fun _ =>
    Raise (VError "Error"
             "You should override the `run` method of `Step` in a subclass");
|}.

Definition markRecovered (self : PersistentComputation) : PersistentComputation :=
  {| class_of := class_of self;
     hasRecoveryDataFlag := true;
     currentStepIndex := currentStepIndex self |}.

(** [this.#currentStepIndex += 1] *)
Definition advance (self : PersistentComputation) : PersistentComputation :=
  {| class_of := class_of self;
     hasRecoveryDataFlag := hasRecoveryDataFlag self;
     currentStepIndex := currentStepIndex self + 1 |}.

(** An element of the list handed to [run]: a class, as the code expects,
    or an already constructed instance, as the test suite also passes. *)
Inductive Runnable :=
| AClass (cls : ComputationClass)
| AnInstance (instance : PersistentComputation).

(** ** The context (persistent-computation-context.js) *)

(** What [Object.prototype] holds under a name: a method, of which the
    code can only come to read the [length], or, under [__proto__], the
    prototype object itself, which has no [length]. *)
Inductive Inherited :=
| InheritedFunction (arity : nat)
| InheritedPrototype.

(** The members of [Object.prototype]. *)
Definition Object_prototype_member (key : string) : option Inherited :=
  if bool_decide (key ∈ ["toString"; "toLocaleString"; "valueOf"])
  then Some (InheritedFunction 0)
  else if bool_decide (key ∈ ["constructor"; "hasOwnProperty"; "isPrototypeOf";
                              "propertyIsEnumerable"; "__lookupGetter__";
                              "__lookupSetter__"])
  then Some (InheritedFunction 1)
  else if bool_decide (key ∈ ["__defineGetter__"; "__defineSetter__"])
  then Some (InheritedFunction 2)
  else if bool_decide (key = "__proto__") then Some InheritedPrototype
  else None.

(** What the read [computations[key]] gives on the plain object
    [computations]: the array the object owns under the key, else what its
    prototype holds there, else [undefined]. *)
Inductive StepData :=
| OwnArray (stepData : list JsValue)
| FromPrototype (member : Inherited)
| NotFound.

Definition read_computations (comps : gmap string (list JsValue)) (key : string)
    : StepData :=
  match comps !! key with
  | Some stepData => OwnArray stepData
  | None =>
      match Object_prototype_member key with
      | Some member => FromPrototype member
      | None => NotFound
      end
  end.

Record RecoveryData := {
  computations : gmap string (list JsValue);
  dependencies : JsValue;
  error : option JsValue;
}.

Record Options := {
  fromScratch : bool;
  recoveryDataLocation : string;
}.

Record RunResult := {
  name : string;
  value : JsValue;
}.

(** The fields of a [PersistentComputationContext]; [results] is [#results]. *)
Record Context := {
  options : Options;
  recoveryData : RecoveryData;
  results : list RunResult;
}.

(** What [transformer.deserialize] hands back: a recovery-data object, or
    one of the falsy values. *)
Inductive Decoded :=
| DecodedObject (data : RecoveryData)
| DecodedFalsy (f : Falsy).

(** errors.js: a [ComputationFailedError] has the name
    ['ComputationFailedError'], a message, the caught error as [cause] and
    the failing instance as [step]. *)
Record ComputationFailedError := {
  message : string;
  cause : JsValue;
  step_of : PersistentComputation;
}.

(** What a call of [run] can reject with: the error it builds itself, or
    any value thrown elsewhere and not caught. *)
Inductive Rejection :=
| ComputationFailed (e : ComputationFailedError)
| Uncaught (e : JsValue).

(** The host: injected capabilities and library functions. [Store] is the
    state behind the transport, [Bytes] what the transformer produces. *)
Class Host := {
  Store : Type;
  Bytes : Type;
  t_exists : string -> Store -> completion JsValue bool * Store;
  t_read : string -> Store -> completion JsValue Bytes * Store;
  t_write : string -> Bytes -> Store -> completion JsValue unit * Store;
  serialize : RecoveryData -> completion JsValue Bytes;
  deserialize : Bytes -> completion JsValue Decoded;
  fastDeepEqual : JsValue -> JsValue -> bool;
  ToString : JsValue -> string;
}.

Section Engine.
Context `{host : Host}.

Inductive event :=
| EvExists (location : string)
| EvRead (location : string)
| EvWrite (location : string) (data : Bytes)
| EvCall (fn : nat).

(** The context object together with the world it acts on. *)
Record Machine := {
  runner : Context;
  store : Store;
  trace : list event;
}.

(** State and exceptions: what every asynchronous method of the context
    threads through its awaits. *)
Definition Eff (A : Type) : Type := Machine -> completion JsValue A * Machine.

#[local] Instance eff_ret : MRet Eff := fun A a m => (Normal a, m).

#[local] Instance eff_bind : MBind Eff := fun A B k c m =>
  match c m with
  | (Normal a, m') => k a m'
  | (Throw e, m') => (Throw e, m')
  end.

Definition gets {A} (f : Context -> A) : Eff A := fun m => (Normal (f (runner m)), m).

Definition with_runner (f : Context -> Context) (m : Machine) : Machine :=
  {| runner := f (runner m); store := store m; trace := trace m |}.

Definition update (f : Context -> Context) : Eff unit :=
  fun m => (Normal tt, with_runner f m).

Definition record (e : event) (m : Machine) : Machine :=
  {| runner := runner m; store := store m; trace := trace m ++ [e] |}.

Definition with_store (s : Store) (m : Machine) : Machine :=
  {| runner := runner m; store := s; trace := trace m |}.

(** A call of a pure capability (the transformer's methods). *)
Definition call {A} (c : completion JsValue A) : Eff A := fun m => (c, m).

(** [await this.#transport.exists(location)] *)
Definition transport_exists (location : string) : Eff bool :=
  fun m =>
    let '(r, s) := t_exists location (store m) in
    (r, record (EvExists location) (with_store s m)).

(** [await this.#transport.read(location)] *)
Definition transport_read (location : string) : Eff Bytes :=
  fun m =>
    let '(r, s) := t_read location (store m) in
    (r, record (EvRead location) (with_store s m)).

(** [await this.#transport.write(location, data)] *)
Definition transport_write (location : string) (data : Bytes) : Eff unit :=
  fun m =>
    let '(r, s) := t_write location data (store m) in
    (r, record (EvWrite location data) (with_store s m)).

Definition set_recoveryData (data : RecoveryData) (c : Context) : Context :=
  {| options := options c; recoveryData := data; results := results c |}.

(** The constructor: [recoveryData = { computations: {}, dependencies: {} }],
    then [Object.assign(this.recoveryData.dependencies, { ...dependencies })]. *)
Definition new_context (opts : Options) (deps : list (string * JsValue)) : Context :=
  {| options := opts;
     recoveryData := {| computations := ∅; dependencies := VObj deps; error := None |};
     results := [] |}.

Definition sameDeps (currentDeps recoveredDeps : JsValue) : bool :=
  fastDeepEqual currentDeps recoveredDeps.

Definition maybeRecover : Eff bool :=
  opts ← gets options;
  if fromScratch opts then mret false
  else
    found ← transport_exists (recoveryDataLocation opts);
    if negb found then mret false
    else
      data ← transport_read (recoveryDataLocation opts);
      loaded ← call (deserialize data);
      match loaded with
      | DecodedFalsy _ => mret false
      | DecodedObject loaded =>
          current ← gets recoveryData;
          if sameDeps (dependencies current) (dependencies loaded)
          then update (set_recoveryData loaded);; mret true
          else mret false
      end.

(** [computations[key]] created when absent, then [push(result)]. *)
Definition push_step (key : string) (result : JsValue)
    (comps : gmap string (list JsValue)) : gmap string (list JsValue) :=
  let comps :=
    match comps !! key with
    | None => <[key := []]> comps
    | Some _ => comps
    end in
  alter (fun stepData => stepData ++ [result]) key comps.

(** [data.error = e] and [data.computations = comps] on the record. *)
Definition with_error (e : JsValue) (data : RecoveryData) : RecoveryData :=
  {| computations := computations data;
     dependencies := dependencies data;
     error := Some e |}.

Definition with_computations (comps : gmap string (list JsValue))
    (data : RecoveryData) : RecoveryData :=
  {| computations := comps;
     dependencies := dependencies data;
     error := error data |}.

(** [save(error, step, result)]: the context the call leaves. [result =
    None] is the call with two arguments ([arguments.length === 3] fails).
    With a result, the guard [!computations[name]] sees what the read
    gives: an array or a member of the prototype is truthy, so that a list
    is created only where the read finds nothing; and under a name that
    reads as a member of the prototype nothing is stored, since [push] is
    not a function there (see [save_completion]). *)
Definition save (error : JsValue) (step : PersistentComputation)
    (result : option JsValue) (c : Context) : Context :=
  let data := recoveryData c in
  let data := if truthy error then with_error error data else data in
  let data :=
    match result with
    | Some result =>
        let key := class_name (class_of step) in
        match read_computations (computations data) key with
        | FromPrototype _ => data
        | OwnArray _ | NotFound =>
            with_computations (push_step key result (computations data)) data
        end
    | None => data
    end in
  set_recoveryData data c.

(** How the call [save(error, step, result)] completes: it throws where
    [computations[name].push] is not a function. *)
Definition save_completion (step : PersistentComputation) (result : option JsValue)
    (c : Context) : completion JsValue unit :=
  match result with
  | Some _ =>
      match read_computations (computations (recoveryData c))
              (class_name (class_of step)) with
      | FromPrototype _ =>
          Throw (TypeError
                   "this.recoveryData.computations[step.constructor.name].push is not a function")
      | OwnArray _ | NotFound => Normal tt
      end
  | None => Normal tt
  end.

Definition flushRecoveryData : Eff unit :=
  c ← gets id;
  data ← call (serialize (recoveryData c));
  transport_write (recoveryDataLocation (options c)) data.

(** [hasRecoveryData(computation)]. [stepData.length] is the length of
    the array, the [length] of an inherited method, and [undefined] on the
    prototype object, where [undefined <= n] is false. *)
Definition hasRecoveryData (computation : PersistentComputation) (c : Context) : bool :=
  match read_computations (computations (recoveryData c))
          (class_name (class_of computation)) with
  | NotFound => false
  | OwnArray stepData =>
      if (length stepData <=? currentStepIndex computation)%nat then false else true
  | FromPrototype (InheritedFunction arity) =>
      if (arity <=? currentStepIndex computation)%nat then false else true
  | FromPrototype InheritedPrototype => true
  end.

(** [getStepValue(computation)]: an index past the end of the array, and
    any index of a member of the prototype, reads as [undefined]. *)
Definition getStepValue (computation : PersistentComputation) (c : Context)
    : completion JsValue JsValue :=
  match read_computations (computations (recoveryData c))
          (class_name (class_of computation)) with
  | NotFound =>
      Throw (TypeError
               ("Cannot read properties of undefined (reading '"
                +:+ pretty (currentStepIndex computation) +:+ "')"))
  | OwnArray stepData =>
      Normal (default VUndefined (stepData !! currentStepIndex computation))
  | FromPrototype _ => Normal VUndefined
  end.

Definition pushResult (computation : PersistentComputation) (v : JsValue)
    (c : Context) : Context :=
  {| options := options c;
     recoveryData := recoveryData c;
     results := results c ++ [{| name := class_name (class_of computation); value := v |}] |}.

(** [this.#results.at(-1)]; [None] is [undefined]. *)
Definition getLastResult (c : Context) : option RunResult := last (results c).

Definition getResultByName (computationName : string) (c : Context) : option RunResult :=
  find (fun result => String.eqb (name result) computationName) (results c).

Definition getResult (computationClass : ComputationClass) (c : Context) : option RunResult :=
  getResultByName (class_name computationClass) c.

(** [PersistentComputation.step(fn)]. The instance is passed and returned
    beside the machine: a throw, of the callback or of [save], leaves its
    cursor where it was. *)
Definition step (fn : StepFn) (self : PersistentComputation) (m : Machine)
    : completion JsValue JsValue * PersistentComputation * Machine :=
  if hasRecoveryData self (runner m) then
    match getStepValue self (runner m) with
    | Normal result => (Normal result, advance self, m)
    | Throw e => (Throw e, self, m)
    end
  else
    let m := record (EvCall (fn_id fn)) m in
    match fn_call fn with
    | Normal result =>
        let saved := with_runner (save VNull self (Some result)) m in
        match save_completion self (Some result) (runner m) with
        | Normal _ => (Normal result, advance self, saved)
        | Throw e => (Throw e, self, saved)
        end
    | Throw e => (Throw e, self, m)
    end.

(** [await computation.run(input)] for the body [b] of the subclass. *)
Fixpoint exec (b : Body) (self : PersistentComputation) (m : Machine)
    : completion JsValue JsValue * PersistentComputation * Machine :=
  match b with
  | Return v => (Normal v, self, m)
  | Raise e => (Throw e, self, m)
  | TryStep fn k =>
      let '(outcome, self, m) := step fn self m in
      exec (k outcome) self m
  | GetHasRecoveryData k => exec (k (hasRecoveryDataFlag self)) self m
  | GetCurrentStepIndex k => exec (k (currentStepIndex self)) self m
  end.

(** [new ComputationFailedError(error, step)] *)
Definition newComputationFailedError (error : JsValue) (step : PersistentComputation)
    : completion JsValue ComputationFailedError :=
  match message_of error with
  | Throw e => Throw e
  | Normal text =>
      Normal {| message :=
                  "Computation failed on step " +:+ class_name (class_of step)
                  +:+ " due to this error: " +:+ ToString text;
                cause := error;
                step_of := step |}
  end.

(** [new Computation(this)]: only a class can be constructed. *)
Definition construct (Computation : Runnable) : completion JsValue PersistentComputation :=
  match Computation with
  | AClass cls =>
      Normal {| class_of := cls; hasRecoveryDataFlag := false; currentStepIndex := 0 |}
  | AnInstance _ => Throw (TypeError "Computation is not a constructor")
  end.

(** The [catch (error)] block of [run]: it always ends in a throw. Its
    call of [save] has two arguments and completes ([save_completion] of
    [None]). *)
Definition run_catch (error : JsValue) (computation : PersistentComputation)
    (m : Machine) : Rejection * Machine :=
  let m := with_runner (save error computation None) m in
  match flushRecoveryData m with
  | (Throw e, m) => (Uncaught e, m)
  | (Normal _, m) =>
      match newComputationFailedError error computation with
      | Throw e => (Uncaught e, m)
      | Normal failure => (ComputationFailed failure, m)
      end
  end.

(** The [for ... of] loop of [run], with its [try] block. It yields the
    last [computationValue]. *)
Fixpoint run_loop (recovered : bool) (computationClasses : list Runnable)
    (computationValue : JsValue) (m : Machine) : completion Rejection JsValue * Machine :=
  match computationClasses with
  | [] => (Normal computationValue, m)
  | Computation :: rest =>
      match construct Computation with
      | Throw e => (Throw (Uncaught e), m)
      | Normal computation =>
          let computation :=
            if recovered then markRecovered computation else computation in
          match exec (run_method (class_of computation) computationValue) computation m with
          | (Normal v, computation, m) =>
              run_loop recovered rest v (with_runner (pushResult computation v) m)
          | (Throw error, computation, m) =>
              let '(e, m) := run_catch error computation m in (Throw e, m)
          end
      end
  end.

Definition run (computationClasses : list Runnable) (input : JsValue) (m : Machine)
    : completion Rejection (option RunResult) * Machine :=
  match maybeRecover m with
  | (Throw e, m) => (Throw (Uncaught e), m)
  | (Normal recovered, m) =>
      match run_loop recovered computationClasses input m with
      | (Throw e, m) => (Throw e, m)
      | (Normal _, m) => (Normal (getLastResult (runner m)), m)
      end
  end.

(** *** Vocabulary of the statements *)

(** One snapshot extends another: every list of the first is a prefix of
    the list the second holds under the same name. *)
Definition extends (old new : gmap string (list JsValue)) : Prop :=
  ∀ key stepData, old !! key = Some stepData →
    ∃ more, new !! key = Some (stepData ++ more).

(** The step results the snapshot holds for the instance's class. *)
Definition stepData_of (self : PersistentComputation) (m : Machine)
    : option (list JsValue) :=
  computations (recoveryData (runner m)) !! class_name (class_of self).

(** The cursor has not run past the stored list (an absent list counts as
    empty). *)
Definition cursor_in_range (self : PersistentComputation) (m : Machine) : Prop :=
  currentStepIndex self ≤ length (default [] (stepData_of self m)).

Definition is_call (e : event) : bool :=
  match e with EvCall _ => true | _ => false end.
Definition is_exists (e : event) : bool :=
  match e with EvExists _ => true | _ => false end.
Definition is_read (e : event) : bool :=
  match e with EvRead _ => true | _ => false end.
Definition is_write (e : event) : bool :=
  match e with EvWrite _ _ => true | _ => false end.

(** How many events of a kind a trace holds. *)
Definition count (kind : event -> bool) (t : list event) : nat :=
  length (List.filter kind t).

(** The instance [run] executes for a class: constructed, then marked
    when the run was recovered. *)
Definition instance_for (recovered : bool) (cls : ComputationClass)
    : PersistentComputation :=
  let computation :=
    {| class_of := cls; hasRecoveryDataFlag := false; currentStepIndex := 0 |} in
  if recovered then markRecovered computation else computation.

(** In the loop over [computationClasses], started in [m0], the
    computations before [cls] complete and the [run] method of [cls]
    throws [error], leaving the instance [computation] and the machine [m2]. *)
Definition fails_at (recovered : bool) (computationClasses : list Runnable)
    (input : JsValue) (m0 : Machine) (cls : ComputationClass) (error : JsValue)
    (computation : PersistentComputation) (m2 : Machine) : Prop :=
  ∃ before after v m1,
    computationClasses = before ++ AClass cls :: after
    ∧ run_loop recovered before input m0 = (Normal v, m1)
    ∧ exec (run_method cls v) (instance_for recovered cls) m1
      = (Throw error, computation, m2).

(** While [exec b self m] runs, it comes to the call [step fn self' m']. *)
Inductive calls_step : Body -> PersistentComputation -> Machine ->
    StepFn -> PersistentComputation -> Machine -> Prop :=
| calls_first (fn : StepFn) (k : completion JsValue JsValue -> Body)
    (self : PersistentComputation) (m : Machine) :
    calls_step (TryStep fn k) self m fn self m
| calls_later (fn : StepFn) (k : completion JsValue JsValue -> Body)
    (self self1 : PersistentComputation) (m m1 : Machine)
    (outcome : completion JsValue JsValue) (fn' : StepFn)
    (self' : PersistentComputation) (m' : Machine) :
    step fn self m = (outcome, self1, m1) ->
    calls_step (k outcome) self1 m1 fn' self' m' ->
    calls_step (TryStep fn k) self m fn' self' m'
| calls_after_flag (k : bool -> Body) (self : PersistentComputation) (m : Machine)
    (fn' : StepFn) (self' : PersistentComputation) (m' : Machine) :
    calls_step (k (hasRecoveryDataFlag self)) self m fn' self' m' ->
    calls_step (GetHasRecoveryData k) self m fn' self' m'
| calls_after_cursor (k : nat -> Body) (self : PersistentComputation) (m : Machine)
    (fn' : StepFn) (self' : PersistentComputation) (m' : Machine) :
    calls_step (k (currentStepIndex self)) self m fn' self' m' ->
    calls_step (GetCurrentStepIndex k) self m fn' self' m'.

(** The [run] method has no [try] around a step: what a step throws, the
    method throws. *)
Inductive propagates : Body -> Prop :=
| propagates_return (v : JsValue) : propagates (Return v)
| propagates_raise (e : JsValue) : propagates (Raise e)
| propagates_step (fn : StepFn) (k : completion JsValue JsValue -> Body) :
    (forall e, k (Throw e) = Raise e) ->
    (forall v, propagates (k (Normal v))) ->
    propagates (TryStep fn k)
| propagates_flag (k : bool -> Body) :
    (forall flag, propagates (k flag)) -> propagates (GetHasRecoveryData k)
| propagates_cursor (k : nat -> Body) :
    (forall cursor, propagates (k cursor)) -> propagates (GetCurrentStepIndex k).

(** The [run] method does not depend on [this.hasRecoveryData]: where it
    reads the getter it goes on the same way with either answer. *)
Inductive flag_blind : Body -> Prop :=
| blind_return (v : JsValue) : flag_blind (Return v)
| blind_raise (e : JsValue) : flag_blind (Raise e)
| blind_step (fn : StepFn) (k : completion JsValue JsValue -> Body) :
    (forall outcome, flag_blind (k outcome)) -> flag_blind (TryStep fn k)
| blind_flag (k : bool -> Body) :
    k true = k false -> flag_blind (k false) -> flag_blind (GetHasRecoveryData k)
| blind_cursor (k : nat -> Body) :
    (forall cursor, flag_blind (k cursor)) -> flag_blind (GetCurrentStepIndex k).

(** Every class of a run list has a [run] method with the property. *)
Definition every_run_method (P : Body -> Prop) (computationClasses : list Runnable)
    : Prop :=
  forall cls input, In (AClass cls) computationClasses -> P (run_method cls input).

(** Reads of [computations[key]] give a list or nothing: the snapshot owns
    a list under the key, or [Object.prototype] has no member of that
    name. *)
Definition own_or_absent (key : string) (comps : gmap string (list JsValue)) : Prop :=
  comps !! key = None -> Object_prototype_member key = None.

(** A later snapshot under which the steps of an earlier one are replayed
    the same: it extends the earlier one, and owns no list under a name
    that the earlier one read from the prototype. *)
Definition replays (old new : gmap string (list JsValue)) : Prop :=
  extends old new
  ∧ ∀ key member,
      read_computations old key = FromPrototype member → new !! key = None.

(** The machine after the transport answered an existence check, and
    after it answered a read. *)
Definition after_exists (s : Store) (m : Machine) : Machine :=
  record (EvExists (recoveryDataLocation (options (runner m)))) (with_store s m).

Definition after_read (s : Store) (m : Machine) : Machine :=
  record (EvRead (recoveryDataLocation (options (runner m)))) (with_store s m).

(** The context holding the results [rs], and the context after [rs] more
    results were pushed. *)
Definition set_results (rs : list RunResult) (c : Context) : Context :=
  {| options := options c; recoveryData := recoveryData c; results := rs |}.


(** [m'] differs from [m] by step results added to the snapshot and by
    callbacks called, and by nothing else. *)
Definition steps_only (m m' : Machine) : Prop :=
  options (runner m') = options (runner m)
  ∧ results (runner m') = results (runner m)
  ∧ dependencies (recoveryData (runner m')) = dependencies (recoveryData (runner m))
  ∧ error (recoveryData (runner m')) = error (recoveryData (runner m))
  ∧ store m' = store m
  ∧ replays (computations (recoveryData (runner m)))
       (computations (recoveryData (runner m')))
  ∧ ∃ ids, trace m' = trace m ++ map EvCall ids.

End Engine.

(** ** Options and logging (persistent-computation-context.js, utils.js) *)

Section OptionsCreate.
Context {V : Type}.

(** The names the copy answers [in] for without owning them: those of
    its prototype chain, [Object.prototype]'s for the object literal that
    [create] builds. *)
Variable inherited : string -> bool.

(** One turn of the loop of [create]. The guard is
    [key in options && typeof optionsObject[key] !== 'undefined'], and
    [in] looks through the prototype chain. An assignment under a name
    the copy only inherits depends on what the prototype holds there (a
    data property is shadowed, an accessor such as [__proto__] is
    called): it is not modelled, and the outcome is [None]. *)
Definition create_entry (options : gmap string V) (entry : string * option V)
    : option (gmap string V) :=
  match entry.2 with
  | None => Some options
  | Some given =>
      match options !! entry.1 with
      | Some _ => Some (<[entry.1 := given]> options)
      | None => if inherited entry.1 then None else Some options
      end
  end.

(** [PersistentComputationContextOptions.create(optionsObject)]: a copy of
    [defaultOptions], then, for every key of [optionsObject] in
    enumeration order, [options[key] = optionsObject[key]] when the key is
    in the copy and the value is not [undefined]. An option value is
    opaque to the code; [None] as a value is [undefined]. *)
Definition create (defaultOptions : gmap string V)
    (optionsObject : list (string * option V)) : option (gmap string V) :=
  foldl (fun copy entry => options ← copy; create_entry options entry)
    (Some defaultOptions) optionsObject.

End OptionsCreate.

(** utils.js: [DEBUG_LEVEL]. *)
Definition DEBUG_LEVEL_NONE : Z := 0.
Definition DEBUG_LEVEL_DEBUG : Z := 1.
Definition DEBUG_LEVEL_VERBOSE : Z := 2.

(** [log(prefix, ...args)]: one call of [logger.log], recorded with its
    arguments. *)
Definition log (prefix : JsValue) (args : list JsValue)
    (calls : list (list JsValue)) : list (list JsValue) :=
  calls ++ [prefix :: args].

(** [debug(...args)] and [verbose(...args)] under [options.debugLevel],
    taken to be an integer as the values of [DEBUG_LEVEL] are. *)
Definition debug (debugLevel : Z) (args : list JsValue)
    (calls : list (list JsValue)) : list (list JsValue) :=
  if (DEBUG_LEVEL_DEBUG <=? debugLevel)%Z then log (VStr "debug") args calls
  else calls.

Definition verbose (debugLevel : Z) (args : list JsValue)
    (calls : list (list JsValue)) : list (list JsValue) :=
  if (DEBUG_LEVEL_VERBOSE <=? debugLevel)%Z then log (VStr "verbose") args calls
  else calls.

(** *** Vocabulary of the further statements *)

(** The class names of a run list, in order. *)
Definition class_names (computationClasses : list Runnable) : list string :=
  map (fun Computation =>
         match Computation with
         | AClass cls => class_name cls
         | AnInstance instance => class_name (class_of instance)
         end)
      computationClasses.

(** Two outcomes of the loop that differ at most in the flag of the
    instance a [ComputationFailedError] carries. *)
Definition same_but_for_the_flag (r1 r2 : completion Rejection JsValue) : Prop :=
  match r1, r2 with
  | Normal v1, Normal v2 => v1 = v2
  | Throw (Uncaught e1), Throw (Uncaught e2) => e1 = e2
  | Throw (ComputationFailed f1), Throw (ComputationFailed f2) =>
      message f1 = message f2
      /\ cause f1 = cause f2
      /\ class_of (step_of f1) = class_of (step_of f2)
      /\ currentStepIndex (step_of f1) = currentStepIndex (step_of f2)
  | _, _ => False
  end.

(** ** Hosts and computations of the test suite *)

Module Examples.

(** ToString for the examples: primitives as JavaScript prints them
    (numbers as integers below 10^21), an array as its elements joined by
    commas with [null] and [undefined] left empty, a plain object as
    [[object Object]], an error as [name: message]. *)
Fixpoint to_string (v : JsValue) : string :=
  match v with
  | VUndefined => "undefined"
  | VNull => "null"
  | VBool true => "true"
  | VBool false => "false"
  | VNum n | VBigInt n => pretty n
  | VNegZero => "0"
  | VNaN => "NaN"
  | VStr s => s
  | VArr items =>
      (fix join (items : list JsValue) : string :=
         match items with
         | [] => ""
         | x :: rest =>
             let shown :=
               match x with
               | VUndefined | VNull => ""
               | _ => to_string x
               end in
             match rest with
             | [] => shown
             | _ => shown +:+ "," +:+ join rest
             end
         end) items
  | VObj _ => "[object Object]"
  | VError n m =>
      match n, m with
      | EmptyString, _ => m
      | _, EmptyString => n
      | _, _ => n +:+ ": " +:+ m
      end
  end.

(** A structural comparator for the examples, in the manner of
    [fast-deep-equal]: primitives by [===] (and [NaN] equal to [NaN]),
    arrays element by element, plain objects key by key, in any order,
    errors by what they print as. *)
Fixpoint deep_equal (a b : JsValue) {struct a} : bool :=
  match a, b with
  | VUndefined, VUndefined | VNull, VNull | VNaN, VNaN => true
  | VNegZero, VNegZero => true
  | VNegZero, VNum n | VNum n, VNegZero => (n =? 0)%Z
  | VBool x, VBool y => Bool.eqb x y
  | VNum x, VNum y | VBigInt x, VBigInt y => (x =? y)%Z
  | VStr x, VStr y => String.eqb x y
  | VError n1 m1, VError n2 m2 =>
      String.eqb (to_string (VError n1 m1)) (to_string (VError n2 m2))
  | VArr xs, VArr ys =>
      (fix all2 (xs ys : list JsValue) : bool :=
         match xs, ys with
         | [], [] => true
         | x :: xs, y :: ys => deep_equal x y && all2 xs ys
         | _, _ => false
         end) xs ys
  | VObj ps, VObj qs =>
      (length ps =? length qs)%nat
      && (fix every (ps : list (string * JsValue)) : bool :=
            match ps with
            | [] => true
            | (k, v) :: ps =>
                existsb (fun q => String.eqb (fst q) k) qs
                && deep_equal v (get_prop k qs) && every ps
            end) ps
  | _, _ => false
  end.

(** What [v8.deserialize(v8.serialize(v))] gives back: a structured clone
    of [v]. An error keeps its message; of its name only the built-in
    error types survive, any other error comes back as a plain [Error]. *)
Definition v8_error_name (name : string) : string :=
  if bool_decide (name ∈ ["EvalError"; "RangeError"; "ReferenceError";
                          "SyntaxError"; "TypeError"; "URIError"])
  then name else "Error".

Fixpoint v8_clone (v : JsValue) : JsValue :=
  match v with
  | VArr items => VArr (map v8_clone items)
  | VObj props => VObj (map (fun '(key, x) => (key, v8_clone x)) props)
  | VError name message => VError (v8_error_name name) message
  | _ => v
  end.

Definition v8_clone_data (data : RecoveryData) : RecoveryData :=
  {| computations := map v8_clone <$> computations data;
     dependencies := v8_clone (dependencies data);
     error := v8_clone <$> error data |}.

(** The default options: [fs.existsSync], [fs.readFileSync] (which throws
    when the file is missing) and [fs.writeFileSync] (which replaces the
    file) over a file system, and the transformer [v8.serialize],
    [v8.deserialize], whose bytes are represented by the value they decode
    to. *)
Definition fs_host : Host := {|
  Store := gmap string Decoded;
  Bytes := Decoded;
  t_exists := fun fileName fs => (Normal (bool_decide (is_Some (fs !! fileName))), fs);
  t_read := fun fileName fs =>
    match fs !! fileName with
    | Some data => (Normal data, fs)
    | None => (Throw (VError "Error" "ENOENT: no such file or directory"), fs)
    end;
  t_write := fun fileName data fs => (Normal tt, <[fileName := data]> fs);
  serialize := fun data => Normal (DecodedObject (v8_clone_data data));
  deserialize := fun data => Normal data;
  fastDeepEqual := deep_equal;
  ToString := to_string;
|}.

(** tests/utils.js, [mockTransport({ exists, read, write })]: constant
    answers; nothing is stored. The transformer is the default one. *)
Definition mock_host (exists_ : bool) (read : completion JsValue Decoded)
    (write : completion JsValue unit) : Host := {|
  Store := unit;
  Bytes := Decoded;
  t_exists := fun _ s => (Normal exists_, s);
  t_read := fun _ s => (read, s);
  t_write := fun _ _ s => (write, s);
  serialize := fun data => Normal (DecodedObject (v8_clone_data data));
  deserialize := fun data => Normal data;
  fastDeepEqual := deep_equal;
  ToString := to_string;
|}.

(** [transportWithData(computations)] *)
Definition transportWithData (comps : gmap string (list JsValue)) : Host :=
  mock_host true
    (Normal (DecodedObject
               {| computations := comps; dependencies := VObj []; error := None |}))
    (Normal tt).

Definition STEP_DATA : JsValue := VObj [("data", VNum 42)].

Definition dataProvider : StepFn := {| fn_id := 0; fn_call := Normal STEP_DATA |}.

Definition OneStepComputation : ComputationClass := {|
  class_name := "OneStepComputation";
  run_method := fun _ => AwaitStep dataProvider Return;
|}.

Definition STEP_DATA_0 : JsValue := VObj [("data", VStr "step one")].
Definition STEP_DATA_1 : JsValue := VObj [("data", VStr "step two")].

Definition stepOneDataProvider : StepFn := {| fn_id := 1; fn_call := Normal STEP_DATA_0 |}.
Definition stepTwoDataProvider : StepFn := {| fn_id := 2; fn_call := Normal STEP_DATA_1 |}.

Definition MultiStepComputation : ComputationClass := {|
  class_name := "MultiStepComputation";
  run_method := fun _ =>
    AwaitStep stepOneDataProvider (fun stepOneData =>
    AwaitStep stepTwoDataProvider (fun stepTwoData =>
    Return (VObj [("stepOneData", stepOneData); ("stepTwoData", stepTwoData)])));
|}.

Definition ThrowingComputation : ComputationClass := {|
  class_name := "ThrowingComputation";
  run_method := fun _ =>
    Raise (VError "BaseComputationError" "ComputationErrorMessage");
|}.

(** Not in the test suite: a [run] that rejects with no reason,
    [return Promise.reject()], which throws [undefined] at the [await]. *)
Definition RejectingComputation : ComputationClass := {|
  class_name := "RejectingComputation";
  run_method := fun _ => Raise VUndefined;
|}.

(** [OneStepComputation] under another class name, as a minifier would
    leave it. *)
Definition RenamedComputation : ComputationClass := {|
  class_name := "a";
  run_method := run_method OneStepComputation;
|}.

(** What [in] answers for on a plain object without own properties: the
    names of [Object.prototype]. *)
Definition Object_prototype (key : string) : bool :=
  bool_decide (key ∈ ["constructor"; "__defineGetter__"; "__defineSetter__";
                      "hasOwnProperty"; "__lookupGetter__"; "__lookupSetter__";
                      "isPrototypeOf"; "propertyIsEnumerable"; "toString";
                      "valueOf"; "__proto__"; "toLocaleString"]).

(** The snapshot of the test "should not recalculate step if recovered
    value is falsy". *)
Definition snapshot_with_false : RecoveryData := {|
  computations := {[ "MultiStepComputation" := [VBool false] ]};
  dependencies := VObj [];
  error := None;
|}.

Definition EIO : JsValue := VError "Error" "EIO: i/o error".

(** Not in the test suite: a callback that throws. *)
Definition flaky : StepFn := {| fn_id := 3; fn_call := Throw EIO |}.



(** Not in the test suite: [MultiStepComputation] declared as
    [class hasOwnProperty extends PersistentComputation], and as
    [class __proto__ extends PersistentComputation]. *)
Definition hasOwnPropertyComputation : ComputationClass := {|
  class_name := "hasOwnProperty";
  run_method := run_method MultiStepComputation;
|}.

Definition protoComputation : ComputationClass := {|
  class_name := "__proto__";
  run_method := run_method MultiStepComputation;
|}.

Definition defaultOptions : Options := {|
  fromScratch := false;
  recoveryDataLocation := ".recovery";
|}.

(** A machine around a new context. *)
Definition boot (h : Host) (opts : Options) (deps : list (string * JsValue))
    (s : @Store h) : @Machine h :=
  {| runner := new_context opts deps; store := s; trace := [] |}.

End Examples.


(** * Properties *)

(** ** Values *)

Lemma falsy_value_is_falsy (f : Falsy) : truthy (falsy_value f) = false.
Proof. destruct f; reflexivity. Qed.

Lemma falsy_is_falsy_value (v : JsValue) :
  truthy v = false -> exists f, v = falsy_value f.
Proof.
  destruct v as [| |b|n| | |n|s|items|props|n msg]; simpl; intros Hv;
    try discriminate.
  - exists FUndefined; reflexivity.
  - exists FNull; reflexivity.
  - destruct b; [discriminate|]. exists FFalse; reflexivity.
  - apply negb_false_iff, Z.eqb_eq in Hv. subst n. exists FZero; reflexivity.
  - exists FNegZero; reflexivity.
  - exists FNaN; reflexivity.
  - apply negb_false_iff, Z.eqb_eq in Hv. subst n. exists FBigIntZero; reflexivity.
  - destruct s; [|discriminate]. exists FEmptyString; reflexivity.
Qed.

(** ** The snapshot's map of step results *)

Lemma push_step_lookup (key : string) (result : JsValue)
    (comps : gmap string (list JsValue)) :
  push_step key result comps !! key = Some (default [] (comps !! key) ++ [result]).
Proof.
  unfold push_step. destruct (comps !! key) as [stepData|] eqn:Hkey; simpl.
  - rewrite lookup_alter_eq, Hkey. reflexivity.
  - rewrite lookup_alter_eq, lookup_insert_eq. reflexivity.
Qed.

Lemma push_step_lookup_ne (key other : string) (result : JsValue)
    (comps : gmap string (list JsValue)) :
  key ≠ other -> push_step key result comps !! other = comps !! other.
Proof.
  intros Hne. unfold push_step.
  rewrite lookup_alter_ne by assumption.
  destruct (comps !! key); [reflexivity|].
  apply lookup_insert_ne; assumption.
Qed.

Lemma extends_refl (comps : gmap string (list JsValue)) : extends comps comps.
Proof. intros key stepData H. exists []. rewrite app_nil_r. assumption. Qed.

Lemma extends_trans (a b c : gmap string (list JsValue)) :
  extends a b -> extends b c -> extends a c.
Proof.
  intros Hab Hbc key stepData H.
  destruct (Hab _ _ H) as [more1 H1].
  destruct (Hbc _ _ H1) as [more2 H2].
  exists (more1 ++ more2). rewrite app_assoc. assumption.
Qed.

Lemma extends_push_step (key : string) (result : JsValue)
    (comps : gmap string (list JsValue)) :
  extends comps (push_step key result comps).
Proof.
  intros k stepData H. destruct (decide (key = k)) as [->|Hne].
  - exists [result]. rewrite push_step_lookup, H. reflexivity.
  - exists []. rewrite push_step_lookup_ne, app_nil_r by assumption. assumption.
Qed.

(** ** Reads of the snapshot's map *)

Lemma read_computations_own (comps : gmap string (list JsValue)) (key : string)
    (stepData : list JsValue) :
  comps !! key = Some stepData -> read_computations comps key = OwnArray stepData.
Proof. unfold read_computations. intros ->. reflexivity. Qed.

Lemma read_computations_plain (comps : gmap string (list JsValue)) (key : string) :
  own_or_absent key comps ->
  read_computations comps key
  = match comps !! key with
    | Some stepData => OwnArray stepData
    | None => NotFound
    end.
Proof.
  unfold read_computations, own_or_absent.
  destruct (comps !! key); [reflexivity|].
  intros Hplain. rewrite Hplain by reflexivity. reflexivity.
Qed.

Lemma read_computations_inherited (comps : gmap string (list JsValue)) (key : string)
    (member : Inherited) :
  read_computations comps key = FromPrototype member
  <-> comps !! key = None /\ Object_prototype_member key = Some member.
Proof.
  unfold read_computations. destruct (comps !! key).
  - split; [discriminate|]. intros [? _]. discriminate.
  - destruct (Object_prototype_member key).
    + split; [intros [= ->]; split; reflexivity|]. intros [_ [= ->]]. reflexivity.
    + split; [discriminate|]. intros [_ ?]. discriminate.
Qed.

Lemma read_computations_not_inherited (comps : gmap string (list JsValue)) (key : string) :
  (forall member, read_computations comps key ≠ FromPrototype member)
  <-> own_or_absent key comps.
Proof.
  unfold own_or_absent. split.
  - intros Hread Hnone. destruct (Object_prototype_member key) as [member|] eqn:Hmember;
      [|reflexivity].
    destruct (Hread member). apply read_computations_inherited. split; assumption.
  - intros Hplain member Hread. apply read_computations_inherited in Hread as [Hnone Hmember].
    rewrite (Hplain Hnone) in Hmember. discriminate.
Qed.

Lemma own_or_absent_extends (key : string) (old new : gmap string (list JsValue)) :
  extends old new -> own_or_absent key old -> own_or_absent key new.
Proof.
  unfold own_or_absent. intros Hext Hold Hnew.
  destruct (old !! key) as [stepData|] eqn:Hkey; [|apply Hold; reflexivity].
  destruct (Hext _ _ Hkey) as [more Hmore]. congruence.
Qed.

Lemma own_or_absent_replays (key : string) (old new : gmap string (list JsValue)) :
  replays old new -> own_or_absent key new -> own_or_absent key old.
Proof.
  unfold own_or_absent. intros [_ Hkeep] Hnew Hold.
  destruct (Object_prototype_member key) as [member|] eqn:Hmember; [|reflexivity].
  apply Hnew. apply (Hkeep key member).
  apply read_computations_inherited. split; assumption.
Qed.

Lemma replays_refl (comps : gmap string (list JsValue)) : replays comps comps.
Proof.
  split; [apply extends_refl|].
  intros key member Hread. apply read_computations_inherited in Hread. tauto.
Qed.

Lemma replays_trans (a b c : gmap string (list JsValue)) :
  replays a b -> replays b c -> replays a c.
Proof.
  intros [Hab Kab] [Hbc Kbc]. split; [eapply extends_trans; eassumption|].
  intros key member Hread. apply (Kbc key member).
  apply read_computations_inherited. split; [eapply Kab; eassumption|].
  apply read_computations_inherited in Hread. tauto.
Qed.

Lemma replays_push_step (key : string) (result : JsValue)
    (comps : gmap string (list JsValue)) :
  own_or_absent key comps -> replays comps (push_step key result comps).
Proof.
  intros Hplain. split; [apply extends_push_step|].
  intros other member Hread. apply read_computations_inherited in Hread as [Hnone Hmember].
  destruct (decide (key = other)) as [->|Hne].
  - rewrite (Hplain Hnone) in Hmember. discriminate.
  - rewrite push_step_lookup_ne by assumption. exact Hnone.
Qed.

(** ** Shapes of [run] methods *)

Lemma propagates_AwaitStep (fn : StepFn) (k : JsValue -> Body) :
  (forall v, propagates (k v)) -> propagates (AwaitStep fn k).
Proof. intros Hk. apply propagates_step; [reflexivity|exact Hk]. Qed.

Lemma flag_blind_AwaitStep (fn : StepFn) (k : JsValue -> Body) :
  (forall v, flag_blind (k v)) -> flag_blind (AwaitStep fn k).
Proof.
  intros Hk. apply blind_step. intros [v|e]; [apply Hk|apply blind_raise].
Qed.

(** Decides [propagates] and [flag_blind] for a [run] method written out,
    and [every_run_method] for a list written out. *)
Ltac run_method_shape :=
  repeat first
    [ apply propagates_return | apply propagates_raise
    | apply blind_return | apply blind_raise
    | apply propagates_AwaitStep; intros
    | apply flag_blind_AwaitStep; intros
    | apply propagates_step; [intros; reflexivity|intros]
    | apply blind_step; intros [|]
    | apply propagates_flag; intros
    | apply propagates_cursor; intros
    | apply blind_flag; [reflexivity|]
    | apply blind_cursor; intros ].

Ltac every_run_method_shape :=
  let cls := fresh "cls" in
  let input := fresh "input" in
  let Hin := fresh "Hin" in
  intros cls input Hin; simpl in Hin;
  repeat (destruct Hin as [Hin|Hin]; [injection Hin as <-; cbn; run_method_shape|]);
  destruct Hin.

Section StepBoundary.
Context `{host : Host}.

Lemma save_replays (thrown : JsValue) (self : PersistentComputation)
    (result : option JsValue) (c : Context) :
  replays (computations (recoveryData c))
    (computations (recoveryData (save thrown self result c))).
Proof.
  unfold save.
  destruct (truthy thrown), result as [result|]; simpl; try apply replays_refl;
    destruct (read_computations _ _) eqn:Hread; simpl; try apply replays_refl;
    apply replays_push_step, read_computations_not_inherited; congruence.
Qed.

Lemma save_result_lookup (self : PersistentComputation) (result : JsValue)
    (c : Context) :
  let key := class_name (class_of self) in
  own_or_absent key (computations (recoveryData c)) ->
  computations (recoveryData (save VNull self (Some result) c)) !! key
  = Some (default [] (computations (recoveryData c) !! key) ++ [result]).
Proof.
  intros key Hplain. simpl. fold key.
  rewrite read_computations_plain by assumption.
  destruct (computations (recoveryData c) !! key) eqn:Hkey;
    simpl; rewrite push_step_lookup, Hkey; reflexivity.
Qed.

Lemma save_result_stepData (self : PersistentComputation) (result : JsValue)
    (m : Machine) :
  own_or_absent (class_name (class_of self)) (computations (recoveryData (runner m))) ->
  stepData_of self (with_runner (save VNull self (Some result)) m)
  = Some (default [] (stepData_of self m) ++ [result]).
Proof. intros Hplain. apply (save_result_lookup self result (runner m) Hplain). Qed.

Lemma save_result_other (self : PersistentComputation) (result : JsValue)
    (c : Context) (key : string) :
  key ≠ class_name (class_of self) ->
  computations (recoveryData (save VNull self (Some result) c)) !! key
  = computations (recoveryData c) !! key.
Proof.
  intros Hne; simpl. destruct (read_computations _ _); simpl; try reflexivity;
    apply push_step_lookup_ne; congruence.
Qed.

Lemma save_completion_plain (self : PersistentComputation) (result : option JsValue)
    (c : Context) :
  own_or_absent (class_name (class_of self)) (computations (recoveryData c)) ->
  save_completion self result c = Normal tt.
Proof.
  intros Hplain. unfold save_completion. destruct result; [|reflexivity].
  rewrite read_computations_plain by assumption.
  destruct (_ !! _); reflexivity.
Qed.

Lemma save_completion_throws (self : PersistentComputation) (result : option JsValue)
    (c : Context) (e : JsValue) :
  save_completion self result c = Throw e ->
  exists member,
    read_computations (computations (recoveryData c)) (class_name (class_of self))
    = FromPrototype member.
Proof.
  unfold save_completion. destruct result; [|discriminate].
  destruct (read_computations _ _) as [stepData|member|]; try discriminate. eauto.
Qed.

Lemma hasRecoveryData_own (self : PersistentComputation) (m : Machine)
    (stepData : list JsValue) :
  stepData_of self m = Some stepData ->
  hasRecoveryData self (runner m)
  = negb (length stepData <=? currentStepIndex self)%nat
  /\ getStepValue self (runner m)
     = Normal (default VUndefined (stepData !! currentStepIndex self)).
Proof.
  unfold stepData_of, hasRecoveryData, getStepValue. intros Hdata.
  rewrite (read_computations_own _ _ _ Hdata).
  destruct (length stepData <=? currentStepIndex self)%nat; split; reflexivity.
Qed.

Lemma hasRecoveryData_true (self : PersistentComputation) (m : Machine) :
  own_or_absent (class_name (class_of self)) (computations (recoveryData (runner m))) ->
  hasRecoveryData self (runner m) = true
  <-> exists stepData,
        stepData_of self m = Some stepData
        /\ currentStepIndex self < length stepData.
Proof.
  intros Hplain. unfold hasRecoveryData, stepData_of.
  rewrite read_computations_plain by assumption.
  destruct (computations (recoveryData (runner m)) !! class_name (class_of self))
    as [stepData|].
  - destruct (Nat.leb_spec (length stepData) (currentStepIndex self)); split.
    + discriminate.
    + intros (l & [= <-] & Hlt). lia.
    + intros _. exists stepData. split; [reflexivity|assumption].
    + reflexivity.
  - split; [discriminate|]. intros (l & Hl & _). discriminate.
Qed.

Lemma hasRecoveryData_false (self : PersistentComputation) (m : Machine) :
  own_or_absent (class_name (class_of self)) (computations (recoveryData (runner m))) ->
  hasRecoveryData self (runner m) = false ->
  length (default [] (stepData_of self m)) <= currentStepIndex self.
Proof.
  intros Hplain. unfold hasRecoveryData, stepData_of.
  rewrite read_computations_plain by assumption.
  destruct (computations (recoveryData (runner m)) !! class_name (class_of self))
    as [stepData|]; simpl; [|lia].
  destruct (Nat.leb_spec (length stepData) (currentStepIndex self));
    [lia|discriminate].
Qed.

(** C1, as the code has it. A step call whose class has a stored list
    longer than the cursor returns the stored value at the cursor
    (whatever it is, falsy included), leaves the machine as it was (the
    callback is not called, the trace is the same) and moves the cursor by
    one. A step call that finds no such list, for a class whose name reads
    as a list or as nothing in the snapshot, calls the callback once. When
    the callback returns, its result is appended to the class's list
    (created when absent), which puts it at the cursor's position for a
    cursor in range, the cursor moves by one and the result is returned.
    When the callback throws, the step throws the same: nothing is
    stored and the cursor stays. *)
Theorem step_replays_or_computes (fn : StepFn) (self : PersistentComputation)
    (m : Machine) :
  let cursor := currentStepIndex self in
  (forall stepData,
      stepData_of self m = Some stepData -> cursor < length stepData ->
      exists stored,
        stepData !! cursor = Some stored
        /\ step fn self m = (Normal stored, advance self, m))
  /\ ((forall stepData, stepData_of self m = Some stepData -> length stepData <= cursor) ->
      own_or_absent (class_name (class_of self)) (computations (recoveryData (runner m))) ->
      match fn_call fn with
      | Normal result =>
          exists m',
            step fn self m = (Normal result, advance self, m')
            /\ trace m' = trace m ++ [EvCall (fn_id fn)]
            /\ stepData_of self m' = Some (default [] (stepData_of self m) ++ [result])
            /\ (cursor_in_range self m ->
                (default [] (stepData_of self m) ++ [result]) !! cursor = Some result)
            /\ (forall key, key ≠ class_name (class_of self) ->
                computations (recoveryData (runner m')) !! key
                = computations (recoveryData (runner m)) !! key)
      | Throw e =>
          step fn self m = (Throw e, self, record (EvCall (fn_id fn)) m)
      end)
  /\ currentStepIndex (advance self) = cursor + 1.
Proof.
  intros cursor. split; [|split].
  - intros stepData Hdata Hlt.
    destruct (lookup_lt_is_Some_2 stepData cursor Hlt) as [stored Hstored].
    exists stored. split; [assumption|].
    destruct (hasRecoveryData_own self m stepData Hdata) as [Hhas Hget].
    unfold step. rewrite Hhas, Hget.
    destruct (Nat.leb_spec (length stepData) (currentStepIndex self)) as [Hle|_];
      [unfold cursor in Hlt; lia|].
    simpl. fold cursor. rewrite Hstored. reflexivity.
  - intros Hshort Hplain.
    assert (hasRecoveryData self (runner m) = false) as Hno.
    { destruct (hasRecoveryData self (runner m)) eqn:Hhas; [|reflexivity].
      apply hasRecoveryData_true in Hhas as (stepData & Hdata & Hlt); [|assumption].
      specialize (Hshort _ Hdata). unfold cursor in Hshort. lia. }
    unfold step. rewrite Hno.
    destruct (fn_call fn) as [result|e]; [|reflexivity].
    change (runner (record (EvCall (fn_id fn)) m)) with (runner m).
    rewrite save_completion_plain by assumption.
    eexists. split; [reflexivity|]. split; [reflexivity|].
    split; [apply (save_result_stepData self result (record (EvCall (fn_id fn)) m));
            assumption|].
    split.
    + unfold cursor_in_range. intros Hrange.
      assert (length (default [] (stepData_of self m)) = cursor) as Hlen.
      { destruct (stepData_of self m) as [stepData|] eqn:Hdata; simpl in *.
        - specialize (Hshort _ eq_refl). unfold cursor in *. lia.
        - unfold cursor. lia. }
      rewrite lookup_app_r by lia. rewrite Hlen, Nat.sub_diag. reflexivity.
    + intros key Hne. apply save_result_other. assumption.
  - unfold advance; simpl. reflexivity.
Qed.

End StepBoundary.

(** ** What running a body changes *)

Section Execution.
Context `{host : Host}.

Lemma instance_for_eq (recovered : bool) (cls : ComputationClass) :
  instance_for recovered cls = Build_PersistentComputation cls recovered 0.
Proof. destruct recovered; reflexivity. Qed.

Lemma steps_only_refl (m : Machine) : steps_only m m.
Proof.
  repeat split; try reflexivity; try apply replays_refl.
  exists []. simpl. rewrite app_nil_r. reflexivity.
Qed.

Lemma steps_only_trans (m1 m2 m3 : Machine) :
  steps_only m1 m2 -> steps_only m2 m3 -> steps_only m1 m3.
Proof.
  intros (Ho1 & Hr1 & Hd1 & He1 & Hs1 & Hx1 & ids1 & Ht1)
         (Ho2 & Hr2 & Hd2 & He2 & Hs2 & Hx2 & ids2 & Ht2).
  split; [congruence|]. split; [congruence|]. split; [congruence|].
  split; [congruence|]. split; [congruence|].
  split; [eapply replays_trans; eassumption|].
  exists (ids1 ++ ids2). rewrite Ht2, Ht1, map_app, app_assoc. reflexivity.
Qed.

Lemma steps_only_call (fn : nat) (m : Machine) : steps_only m (record (EvCall fn) m).
Proof.
  repeat split; try reflexivity; try apply replays_refl.
  exists [fn]. reflexivity.
Qed.

Lemma steps_only_save (self : PersistentComputation) (result : option JsValue)
    (m : Machine) :
  steps_only m (with_runner (save VNull self result) m).
Proof.
  split; [reflexivity|]. split; [reflexivity|].
  split; [simpl; destruct result; [destruct (read_computations _ _)|]; reflexivity|].
  split; [simpl; destruct result; [destruct (read_computations _ _)|]; reflexivity|].
  split; [reflexivity|]. split; [apply save_replays|].
  exists []. simpl. rewrite app_nil_r. reflexivity.
Qed.

Lemma step_steps_only (fn : StepFn) (self self' : PersistentComputation)
    (m m' : Machine) (r : completion JsValue JsValue) :
  step fn self m = (r, self', m') ->
  steps_only m m'
  /\ class_of self' = class_of self
  /\ hasRecoveryDataFlag self' = hasRecoveryDataFlag self
  /\ currentStepIndex self <= currentStepIndex self'
  /\ (own_or_absent (class_name (class_of self)) (computations (recoveryData (runner m))) ->
      cursor_in_range self m -> cursor_in_range self' m').
Proof.
  unfold step. destruct (hasRecoveryData self (runner m)) eqn:Hhas.
  - destruct (getStepValue self (runner m)) as [result|e]; intros [= <- <- <-].
    + split; [apply steps_only_refl|]. split; [reflexivity|]. split; [reflexivity|].
      split; [simpl; lia|]. intros Hplain _.
      apply hasRecoveryData_true in Hhas as (stepData & Hdata & Hlt); [|assumption].
      unfold cursor_in_range, stepData_of in *. simpl. rewrite Hdata. simpl. lia.
    + split; [apply steps_only_refl|]. split; [reflexivity|]. split; [reflexivity|].
      split; [lia|]. intros _ H; exact H.
  - destruct (fn_call fn) as [result|e].
    + change (runner (record (EvCall (fn_id fn)) m)) with (runner m).
      assert (steps_only m (with_runner (save VNull self (Some result))
                              (record (EvCall (fn_id fn)) m))) as Hsteps.
      { eapply steps_only_trans; [apply steps_only_call|apply steps_only_save]. }
      destruct (save_completion self (Some result) (runner m)) as [[]|e] eqn:Hsave;
        intros [= <- <- <-].
      * split; [exact Hsteps|]. split; [reflexivity|]. split; [reflexivity|].
        split; [simpl; lia|]. intros Hplain Hrange.
        unfold cursor_in_range in *.
        replace (stepData_of (advance self)
                   (with_runner (save VNull self (Some result))
                      (record (EvCall (fn_id fn)) m)))
          with (Some (default [] (stepData_of self m) ++ [result])).
        2: { symmetry.
             apply (save_result_stepData self result (record (EvCall (fn_id fn)) m)).
             assumption. }
        simpl. rewrite length_app. simpl. lia.
      * split; [exact Hsteps|]. split; [reflexivity|]. split; [reflexivity|].
        split; [lia|]. intros Hplain _.
        rewrite save_completion_plain in Hsave by assumption. discriminate.
    + intros [= <- <- <-].
      split; [apply steps_only_call|]. split; [reflexivity|]. split; [reflexivity|].
      split; [lia|]. intros _ H; exact H.
Qed.

Lemma steps_only_own_or_absent (key : string) (m m' : Machine) :
  steps_only m m' ->
  own_or_absent key (computations (recoveryData (runner m)))
  <-> own_or_absent key (computations (recoveryData (runner m'))).
Proof.
  intros (_ & _ & _ & _ & _ & Hx & _). split.
  - apply own_or_absent_extends, Hx.
  - apply own_or_absent_replays, Hx.
Qed.

Lemma exec_steps_only (b : Body) :
  forall (self self' : PersistentComputation) (m m' : Machine)
         (r : completion JsValue JsValue),
    exec b self m = (r, self', m') ->
    steps_only m m'
    /\ class_of self' = class_of self
    /\ hasRecoveryDataFlag self' = hasRecoveryDataFlag self
    /\ currentStepIndex self <= currentStepIndex self'
    /\ (own_or_absent (class_name (class_of self)) (computations (recoveryData (runner m))) ->
        cursor_in_range self m -> cursor_in_range self' m').
Proof.
  induction b as [v|e|fn k IH|k IH|k IH]; intros self self' m m' r; simpl.
  - intros [= <- <- <-]. split; [apply steps_only_refl|]. repeat split; auto.
  - intros [= <- <- <-]. split; [apply steps_only_refl|]. repeat split; auto.
  - destruct (step fn self m) as [[outcome self1] m1] eqn:Hstep. intros Hexec.
    destruct (step_steps_only _ _ _ _ _ _ Hstep) as (Hs1 & Hc1 & Hf1 & Hn1 & Hi1).
    destruct (IH _ _ _ _ _ _ Hexec) as (Hs2 & Hc2 & Hf2 & Hn2 & Hi2).
    split; [eapply steps_only_trans; eassumption|].
    split; [congruence|]. split; [congruence|]. split; [lia|].
    intros Hplain Hrange. apply Hi2; [|apply Hi1; assumption].
    rewrite Hc1. apply (steps_only_own_or_absent _ _ _ Hs1). exact Hplain.
  - apply IH.
  - apply IH.
Qed.



(** X1. Every step call a [run] method comes to finds the cursor in range:
    the instance starts at cursor 0 and each step keeps the cursor within
    the stored list, for a class whose name reads as a list or as nothing
    in the snapshot. *)
Lemma every_step_call_is_in_range (recovered : bool) (cls : ComputationClass)
    (input : JsValue) (m : Machine) (fn : StepFn) (self' : PersistentComputation)
    (m' : Machine) :
  own_or_absent (class_name cls) (computations (recoveryData (runner m))) ->
  calls_step (run_method cls input) (instance_for recovered cls) m fn self' m' ->
  cursor_in_range self' m' /\ class_of self' = cls.
Proof.
  assert (forall b self m0 fn' s' m1,
             calls_step b self m0 fn' s' m1 ->
             own_or_absent (class_name (class_of self))
               (computations (recoveryData (runner m0))) ->
             cursor_in_range self m0 ->
             cursor_in_range s' m1 /\ class_of s' = class_of self) as Hgen.
  { intros b self m0 fn' s' m1 Hcalls.
    induction Hcalls as [fn0 k self m0
                        |fn0 k self self1 m0 m1 outcome fn' s' m2 Hstep _ IH
                        |k self m0 fn' s' m1 _ IH
                        |k self m0 fn' s' m1 _ IH].
    - intros _ Hrange. split; [exact Hrange|reflexivity].
    - intros Hplain Hrange.
      destruct (step_steps_only _ _ _ _ _ _ Hstep) as (Hs & Hclass & _ & _ & Hrange1).
      destruct IH as (Hr & Hc).
      + rewrite Hclass. apply (steps_only_own_or_absent _ _ _ Hs). exact Hplain.
      + apply Hrange1; assumption.
      + split; [exact Hr|congruence].
    - exact IH.
    - exact IH. }
  intros Hplain Hcalls. destruct (Hgen _ _ _ _ _ _ Hcalls) as (Hr & Hc).
  - rewrite instance_for_eq. exact Hplain.
  - unfold cursor_in_range. destruct recovered; simpl; lia.
  - split; [exact Hr|]. rewrite Hc. destruct recovered; reflexivity.
Qed.

End Execution.

(** ** The loop of [run] *)

Section RunLoop.
Context `{host : Host}.

Lemma run_loop_app (recovered : bool) (before after : list Runnable) :
  forall (input : JsValue) (m : Machine),
    run_loop recovered (before ++ after) input m
    = match run_loop recovered before input m with
      | (Normal v, m') => run_loop recovered after v m'
      | (Throw e, m') => (Throw e, m')
      end.
Proof.
  induction before as [|Computation before IH]; intros input m; simpl.
  - reflexivity.
  - destruct (construct Computation) as [computation|e]; [|reflexivity].
    destruct (exec _ _ m) as [[[v|error] computation'] m1].
    + apply IH.
    + destruct (run_catch error computation' m1). reflexivity.
Qed.

(** One turn of the loop on a class, in terms of [instance_for]. *)
Lemma run_loop_class (recovered : bool) (cls : ComputationClass)
    (rest : list Runnable) (input : JsValue) (m : Machine) :
  run_loop recovered (AClass cls :: rest) input m
  = match exec (run_method cls input) (instance_for recovered cls) m with
    | (Normal v, computation, m1) =>
        run_loop recovered rest v (with_runner (pushResult computation v) m1)
    | (Throw error, computation, m1) =>
        let '(e, m2) := run_catch error computation m1 in (Throw e, m2)
    end.
Proof. destruct recovered; reflexivity. Qed.

(** A loop that completes has only run steps and pushed results. *)
Lemma run_loop_normal (recovered : bool) (computationClasses : list Runnable) :
  forall (input v : JsValue) (m m' : Machine),
    run_loop recovered computationClasses input m = (Normal v, m') ->
    options (runner m') = options (runner m)
    /\ dependencies (recoveryData (runner m')) = dependencies (recoveryData (runner m))
    /\ error (recoveryData (runner m')) = error (recoveryData (runner m))
    /\ store m' = store m
    /\ replays (computations (recoveryData (runner m)))
         (computations (recoveryData (runner m')))
    /\ (exists rs, results (runner m') = results (runner m) ++ rs)
    /\ (exists ids, trace m' = trace m ++ map EvCall ids).
Proof.
  induction computationClasses as [|[cls|instance] rest IH]; intros input v m m'.
  - simpl. intros [= <- <-]. repeat split; try reflexivity; try apply replays_refl.
    + exists []. rewrite app_nil_r. reflexivity.
    + exists []. simpl. rewrite app_nil_r. reflexivity.
  - rewrite run_loop_class.
    destruct (exec _ _ m) as [[[v1|error] computation] m1] eqn:Hexec.
    + intros Hrest.
      destruct (exec_steps_only _ _ _ _ _ _ Hexec)
        as ((Ho & Hr & Hd & He & Hs & Hx & ids1 & Ht) & _).
      destruct (IH _ _ _ _ Hrest) as (Ho2 & Hd2 & He2 & Hs2 & Hx2 & (rs & Hr2) & ids2 & Ht2).
      simpl in *.
      split; [congruence|]. split; [congruence|]. split; [congruence|].
      split; [congruence|]. split; [eapply replays_trans; eassumption|]. split.
      * eexists. rewrite Hr2, Hr, <- app_assoc. reflexivity.
      * exists (ids1 ++ ids2). rewrite Ht2, Ht, map_app, app_assoc. reflexivity.
    + destruct (run_catch error computation m1). discriminate.
  - simpl. discriminate.
Qed.

Lemma every_run_method_cons (P : Body -> Prop) (cls : ComputationClass)
    (rest : list Runnable) :
  every_run_method P (AClass cls :: rest) ->
  (forall input, P (run_method cls input)) /\ every_run_method P rest.
Proof.
  intros Hall. split.
  - intros input. apply Hall. left. reflexivity.
  - intros c input Hin. apply Hall. right. exact Hin.
Qed.


End RunLoop.

(** ** Recovery and flushing *)

Section Recovery.
Context `{host : Host}.

Lemma maybeRecover_fromScratch (m : Machine) :
  fromScratch (options (runner m)) = true -> maybeRecover m = (Normal false, m).
Proof.
  intros H. unfold maybeRecover, mbind, eff_bind, gets. simpl. rewrite H. reflexivity.
Qed.

Lemma maybeRecover_unfold (m : Machine) :
  fromScratch (options (runner m)) = false ->
  maybeRecover m
  = let location := recoveryDataLocation (options (runner m)) in
    match t_exists location (store m) with
    | (Throw e, s) => (Throw e, after_exists s m)
    | (Normal false, s) => (Normal false, after_exists s m)
    | (Normal true, s) =>
        match t_read location s with
        | (Throw e, s') => (Throw e, after_read s' (after_exists s m))
        | (Normal data, s') =>
            let m' := after_read s' (after_exists s m) in
            match deserialize data with
            | Throw e => (Throw e, m')
            | Normal (DecodedFalsy _) => (Normal false, m')
            | Normal (DecodedObject loaded) =>
                if sameDeps (dependencies (recoveryData (runner m)))
                     (dependencies loaded)
                then (Normal true, with_runner (set_recoveryData loaded) m')
                else (Normal false, m')
            end
        end
    end.
Proof.
  intros H. unfold maybeRecover, mbind, eff_bind, gets. simpl. rewrite H.
  unfold transport_exists, after_exists.
  destruct (t_exists _ (store m)) as [[[|]|e] s]; simpl; try reflexivity.
  unfold transport_read, after_read. simpl.
  destruct (t_read _ s) as [[data|e] s']; simpl; try reflexivity.
  unfold call. destruct (deserialize data) as [[loaded|f]|e]; simpl; try reflexivity.
  destruct (sameDeps _ _); reflexivity.
Qed.

Lemma flushRecoveryData_unfold (m : Machine) :
  flushRecoveryData m
  = let location := recoveryDataLocation (options (runner m)) in
    match serialize (recoveryData (runner m)) with
    | Throw e => (Throw e, m)
    | Normal data =>
        let '(r, s) := t_write location data (store m) in
        (r, record (EvWrite location data) (with_store s m))
    end.
Proof.
  unfold flushRecoveryData, mbind, eff_bind, gets, call, transport_write. simpl.
  destruct (serialize _); reflexivity.
Qed.

End Recovery.

(** ** Failure of a computation *)

Section Failure.
Context `{host : Host}.

Lemma save_error_only (thrown : JsValue) (computation : PersistentComputation)
    (c : Context) :
  options (save thrown computation None c) = options c
  /\ results (save thrown computation None c) = results c
  /\ computations (recoveryData (save thrown computation None c))
     = computations (recoveryData c)
  /\ dependencies (recoveryData (save thrown computation None c))
     = dependencies (recoveryData c)
  /\ error (recoveryData (save thrown computation None c))
     = if truthy thrown then Some thrown else error (recoveryData c).
Proof. unfold save. destruct (truthy thrown); simpl; repeat split; reflexivity. Qed.

(** What the [catch] block does: it records the error, asks the
    transformer for the encoding of the whole snapshot and, when it got
    one, issues one write; it rejects with the first thing that threw, or
    with the wrapped error. *)
Lemma run_catch_spec (error : JsValue) (computation : PersistentComputation)
    (m2 m' : Machine) (e : Rejection) :
  run_catch error computation m2 = (e, m') ->
  let location := recoveryDataLocation (options (runner m2)) in
  runner m' = save error computation None (runner m2)
  /\ ((exists x,
          serialize (recoveryData (runner m')) = Throw x
          /\ e = Uncaught x /\ trace m' = trace m2 /\ store m' = store m2)
      \/ (exists data r,
             serialize (recoveryData (runner m')) = Normal data
             /\ t_write location data (store m2) = (r, store m')
             /\ trace m' = trace m2 ++ [EvWrite location data]
             /\ match r with
                | Throw x => e = Uncaught x
                | Normal _ =>
                    match newComputationFailedError error computation with
                    | Throw x => e = Uncaught x
                    | Normal failure => e = ComputationFailed failure
                    end
                end)).
Proof.
  unfold run_catch. rewrite flushRecoveryData_unfold. simpl.
  destruct (serialize _) as [data|x] eqn:Hser.
  - destruct (t_write _ data (store m2)) as [[[]|x] s] eqn:Hw.
    + destruct (newComputationFailedError error computation) as [failure|x] eqn:Hnew;
        intros [= <- <-]; simpl; (split; [reflexivity|]); right;
        exists data, (Normal tt); repeat split; first [assumption|reflexivity].
    + intros [= <- <-]; simpl. split; [reflexivity|]. right.
      exists data, (Throw x). repeat split; first [assumption|reflexivity].
  - intros [= <- <-]; simpl. split; [reflexivity|]. left.
    exists x. repeat split; first [assumption|reflexivity].
Qed.

(** The three ways the loop can end. *)
Lemma run_loop_outcome (recovered : bool) (computationClasses : list Runnable) :
  forall (input : JsValue) (m m' : Machine) (r : completion Rejection JsValue),
    run_loop recovered computationClasses input m = (r, m') ->
    (exists v, r = Normal v)
    \/ (exists before instance after v,
           computationClasses = before ++ AnInstance instance :: after
           /\ run_loop recovered before input m = (Normal v, m')
           /\ r = Throw (Uncaught (TypeError "Computation is not a constructor")))
    \/ (exists cls error computation m2 e,
           fails_at recovered computationClasses input m cls error computation m2
           /\ run_catch error computation m2 = (e, m')
           /\ r = Throw e).
Proof.
  induction computationClasses as [|[cls|instance] rest IH]; intros input m m' r.
  - simpl. intros [= <- <-]. left. eauto.
  - rewrite run_loop_class.
    destruct (exec _ _ m) as [[[v1|error] computation] m1] eqn:Hexec.
    + intros Hrest. destruct (IH _ _ _ _ Hrest) as [Hn|[Hi|Hf]].
      * left. exact Hn.
      * right. left. destruct Hi as (before & instance & after & v & -> & Hloop & ->).
        exists (AClass cls :: before), instance, after, v.
        split; [reflexivity|]. split; [|reflexivity].
        rewrite run_loop_class, Hexec. exact Hloop.
      * right. right.
        destruct Hf as (cls' & error & computation' & m2 & e & Hfail & Hcatch & ->).
        exists cls', error, computation', m2, e. split; [|split; [exact Hcatch|reflexivity]].
        destruct Hfail as (before & after & v & m0 & -> & Hloop & Hexec').
        exists (AClass cls :: before), after, v, m0.
        split; [reflexivity|]. split; [|exact Hexec'].
        rewrite run_loop_class, Hexec. exact Hloop.
    + destruct (run_catch error computation m1) as [e m2] eqn:Hcatch.
      intros [= <- <-]. right. right.
      exists cls, error, computation, m1, e. split; [|split; [exact Hcatch|reflexivity]].
      exists [], rest, input, m.
      split; [reflexivity|]. split; [reflexivity|exact Hexec].
  - simpl. intros [= <- <-]. right. left.
    exists [], instance, rest, input.
    split; [reflexivity|]. split; reflexivity.
Qed.

(** A failing computation sends the loop through the [catch] block,
    whatever follows it in the list. *)
Lemma run_loop_fails (recovered : bool) (computationClasses : list Runnable)
    (input : JsValue) (m : Machine) (cls : ComputationClass) (error : JsValue)
    (computation : PersistentComputation) (m2 : Machine) :
  fails_at recovered computationClasses input m cls error computation m2 ->
  run_loop recovered computationClasses input m
  = (Throw (fst (run_catch error computation m2)),
     snd (run_catch error computation m2)).
Proof.
  intros (before & after & v & m1 & -> & Hloop & Hexec).
  rewrite run_loop_app, Hloop, run_loop_class, Hexec.
  destruct (run_catch error computation m2). reflexivity.
Qed.

Lemma fails_at_frame (recovered : bool) (computationClasses : list Runnable)
    (input : JsValue) (m : Machine) (cls : ComputationClass) (error : JsValue)
    (computation : PersistentComputation) (m2 : Machine) :
  fails_at recovered computationClasses input m cls error computation m2 ->
  options (runner m2) = options (runner m)
  /\ exists ids, trace m2 = trace m ++ map EvCall ids.
Proof.
  intros (before & after & v & m1 & _ & Hbefore & Hexec).
  destruct (run_loop_normal _ _ _ _ _ _ Hbefore) as (Ho1 & _ & _ & _ & _ & _ & ids1 & Ht1).
  destruct (exec_steps_only _ _ _ _ _ _ Hexec) as ((Ho2 & _ & _ & _ & _ & _ & ids2 & Ht2) & _).
  split; [congruence|].
  exists (ids1 ++ ids2). rewrite Ht2, Ht1, map_app, app_assoc. reflexivity.
Qed.

(** The events of the loop: calls of step callbacks, then nothing more,
    or one write of the encoded snapshot after the failure of a
    computation. *)
Lemma run_loop_events (recovered : bool) (computationClasses : list Runnable)
    (input : JsValue) (m m' : Machine) (r : completion Rejection JsValue) :
  run_loop recovered computationClasses input m = (r, m') ->
  exists ids w,
    trace m' = trace m ++ map EvCall ids ++ w
    /\ (w = []
        \/ exists data cls error computation m2,
             w = [EvWrite (recoveryDataLocation (options (runner m))) data]
             /\ serialize (recoveryData (runner m')) = Normal data
             /\ fails_at recovered computationClasses input m cls error computation m2
             /\ runner m' = save error computation None (runner m2)).
Proof.
  intros Hloop.
  destruct (run_loop_outcome _ _ _ _ _ _ Hloop) as [[v ->]|[Hi|Hf]].
  - destruct (run_loop_normal _ _ _ _ _ _ Hloop) as (_ & _ & _ & _ & _ & _ & ids & Ht).
    exists ids, []. rewrite app_nil_r. split; [assumption|left; reflexivity].
  - destruct Hi as (before & instance & after & v & _ & Hbefore & _).
    destruct (run_loop_normal _ _ _ _ _ _ Hbefore) as (_ & _ & _ & _ & _ & _ & ids & Ht).
    exists ids, []. rewrite app_nil_r. split; [assumption|left; reflexivity].
  - destruct Hf as (cls & error & computation & m2 & e & Hfail & Hcatch & _).
    destruct (fails_at_frame _ _ _ _ _ _ _ _ Hfail) as (Ho & ids & Ht).
    destruct (run_catch_spec _ _ _ _ _ Hcatch)
      as (Hrunner & [(x & _ & _ & Ht3 & _)|(data & r0 & Hser & _ & Ht3 & _)]).
    + exists ids, []. rewrite Ht3, Ht, app_nil_r. split; [reflexivity|left; reflexivity].
    + exists ids, [EvWrite (recoveryDataLocation (options (runner m))) data].
      rewrite Ht3, Ht, Ho, app_assoc. split; [reflexivity|]. right.
      exists data, cls, error, computation, m2. repeat split; assumption.
Qed.

Lemma run_loop_fails_events (recovered : bool) (computationClasses : list Runnable)
    (input : JsValue) (m : Machine) (cls : ComputationClass) (error : JsValue)
    (computation : PersistentComputation) (m2 : Machine) (data : Bytes) :
  fails_at recovered computationClasses input m cls error computation m2 ->
  serialize (recoveryData (save error computation None (runner m2))) = Normal data ->
  exists ids,
    trace (snd (run_loop recovered computationClasses input m))
    = trace m ++ map EvCall ids
      ++ [EvWrite (recoveryDataLocation (options (runner m))) data].
Proof.
  intros Hfail Hser. rewrite (run_loop_fails _ _ _ _ _ _ _ _ Hfail). simpl.
  destruct (fails_at_frame _ _ _ _ _ _ _ _ Hfail) as (Ho & ids & Ht).
  destruct (run_catch error computation m2) as [e m'] eqn:Hcatch. simpl.
  destruct (run_catch_spec _ _ _ _ _ Hcatch)
    as (Hrunner & [(x & Hx & _)|(data' & r0 & Hser' & _ & Ht3 & _)]).
  - rewrite Hrunner in Hx. congruence.
  - rewrite Hrunner in Hser'. assert (data' = data) as -> by congruence.
    exists ids. rewrite Ht3, Ht, Ho, app_assoc. reflexivity.
Qed.

(** X2. However the loop ends, it has only added step results to the
    snapshot's lists: none is removed, shortened or reordered, and the
    dependencies are the same. *)
Lemma run_loop_only_extends_the_snapshot (recovered : bool)
    (computationClasses : list Runnable) (input : JsValue) (m m' : Machine)
    (r : completion Rejection JsValue) :
  run_loop recovered computationClasses input m = (r, m') ->
  extends (computations (recoveryData (runner m)))
    (computations (recoveryData (runner m')))
  /\ dependencies (recoveryData (runner m')) = dependencies (recoveryData (runner m)).
Proof.
  intros Hloop.
  destruct (run_loop_outcome _ _ _ _ _ _ Hloop) as [[v ->]|[Hi|Hf]].
  - destruct (run_loop_normal _ _ _ _ _ _ Hloop) as (_ & Hd & _ & _ & (Hx & _) & _).
    split; assumption.
  - destruct Hi as (before & instance & after & v & _ & Hbefore & _).
    destruct (run_loop_normal _ _ _ _ _ _ Hbefore) as (_ & Hd & _ & _ & (Hx & _) & _).
    split; assumption.
  - destruct Hf as (cls & thrown & computation & m2 & e & Hfail & Hcatch & _).
    destruct Hfail as (before & after & v & m1 & _ & Hbefore & Hexec).
    destruct (run_loop_normal _ _ _ _ _ _ Hbefore) as (_ & Hd1 & _ & _ & (Hx1 & _) & _).
    destruct (exec_steps_only _ _ _ _ _ _ Hexec)
      as ((_ & _ & Hd2 & _ & _ & (Hx2 & _) & _) & _).
    destruct (run_catch_spec _ _ _ _ _ Hcatch) as (Hrunner & _).
    destruct (save_error_only thrown computation (runner m2)) as (_ & _ & Hc & Hd3 & _).
    rewrite Hrunner, Hc, Hd3. split; [|congruence].
    eapply extends_trans; eassumption.
Qed.

End Failure.

(** ** Counting the events of a trace *)

Section Traces.
Context `{host : Host}.

Lemma count_app (kind : event -> bool) (a b : list event) :
  count kind (a ++ b) = count kind a + count kind b.
Proof. unfold count. rewrite List.filter_app, length_app. reflexivity. Qed.

Lemma count_calls (kind : event -> bool) (ids : list nat) :
  (forall id, kind (EvCall id) = false) -> count kind (map EvCall ids) = 0.
Proof.
  intros Hkind. unfold count. induction ids as [|id ids IH]; simpl.
  - reflexivity.
  - rewrite Hkind. exact IH.
Qed.

Lemma count_is_call_calls (ids : list nat) :
  count is_call (map EvCall ids) = length ids.
Proof.
  unfold count. induction ids as [|id ids IH]; simpl; [reflexivity|].
  rewrite IH. reflexivity.
Qed.

(** The recovery decision touches the options and the results of the
    context in no case, asks the transport for at most one existence check
    followed by at most one read, and either keeps the snapshot or adopts
    one whose dependencies the comparator accepted. *)
Lemma maybeRecover_effect (m m' : Machine) (r : completion JsValue bool) :
  maybeRecover m = (r, m') ->
  let location := recoveryDataLocation (options (runner m)) in
  options (runner m') = options (runner m)
  /\ results (runner m') = results (runner m)
  /\ (exists evs,
         trace m' = trace m ++ evs
         /\ (evs = [] \/ evs = [EvExists location]
             \/ evs = [EvExists location; EvRead location]))
  /\ (recoveryData (runner m') = recoveryData (runner m)
      \/ (r = Normal true
          /\ sameDeps (dependencies (recoveryData (runner m)))
               (dependencies (recoveryData (runner m'))) = true)).
Proof.
  destruct (fromScratch (options (runner m))) eqn:Hscratch.
  - rewrite maybeRecover_fromScratch by assumption. intros [= <- <-]. simpl.
    repeat split; [|left; reflexivity].
    exists []. rewrite app_nil_r. split; [reflexivity|]. left; reflexivity.
  - rewrite maybeRecover_unfold by assumption. simpl.
    destruct (t_exists _ (store m)) as [[[|]|e] s].
    + destruct (t_read _ s) as [[data|e] s'].
      * destruct (deserialize data) as [[loaded|f]|e].
        -- destruct (sameDeps _ (dependencies loaded)) eqn:Hsame;
             intros [= <- <-]; simpl;
             (split; [reflexivity|split; [reflexivity|split]]);
             try (eexists; rewrite <- app_assoc; split; [reflexivity|];
                  right; right; reflexivity).
           ++ right. split; [reflexivity|assumption].
           ++ left; reflexivity.
        -- intros [= <- <-]; simpl.
           split; [reflexivity|split; [reflexivity|split]]; [|left; reflexivity].
           eexists; rewrite <- app_assoc; split; [reflexivity|].
           right; right; reflexivity.
        -- intros [= <- <-]; simpl.
           split; [reflexivity|split; [reflexivity|split]]; [|left; reflexivity].
           eexists; rewrite <- app_assoc; split; [reflexivity|].
           right; right; reflexivity.
      * intros [= <- <-]; simpl.
        split; [reflexivity|split; [reflexivity|split]]; [|left; reflexivity].
        eexists; rewrite <- app_assoc; split; [reflexivity|].
        right; right; reflexivity.
    + intros [= <- <-]; simpl.
      split; [reflexivity|split; [reflexivity|split]]; [|left; reflexivity].
      eexists; split; [reflexivity|]. right; left; reflexivity.
    + intros [= <- <-]; simpl.
      split; [reflexivity|split; [reflexivity|split]]; [|left; reflexivity].
      eexists; split; [reflexivity|]. right; left; reflexivity.
Qed.

End Traces.

(** ** The recovery decision *)

Section RecoveryDecision.
Context `{host : Host}.

(** C3. When recovery is attempted and the transformer decoded what was
    read: a falsy decoded value leaves the run not recovered and the
    snapshot as it was; a decoded object whose dependencies the comparator
    reports equal to the context's replaces the snapshot whole and the run
    is recovered; with dependencies reported different the snapshot stays
    as it was and the run is not recovered. The flag is what the
    instances of the run are marked with. *)
Theorem recovery_decision (m : Machine) (s s' : Store) (data : Bytes)
    (decoded : Decoded) :
  let location := recoveryDataLocation (options (runner m)) in
  fromScratch (options (runner m)) = false ->
  t_exists location (store m) = (Normal true, s) ->
  t_read location s = (Normal data, s') ->
  deserialize data = Normal decoded ->
  exists recovered m',
    maybeRecover m = (Normal recovered, m')
    /\ options (runner m') = options (runner m)
    /\ results (runner m') = results (runner m)
    /\ match decoded with
       | DecodedFalsy _ =>
           recovered = false
           /\ recoveryData (runner m') = recoveryData (runner m)
       | DecodedObject loaded =>
           if sameDeps (dependencies (recoveryData (runner m))) (dependencies loaded)
           then recovered = true /\ recoveryData (runner m') = loaded
           else recovered = false
                /\ recoveryData (runner m') = recoveryData (runner m)
       end
    /\ forall cls, hasRecoveryDataFlag (instance_for recovered cls) = recovered.
Proof.
  intros location Hscratch Hexists Hread Hdecode.
  rewrite maybeRecover_unfold by assumption. simpl. fold location.
  rewrite Hexists, Hread, Hdecode.
  destruct decoded as [loaded|f].
  - destruct (sameDeps _ (dependencies loaded)).
    + eexists _, _. split; [reflexivity|]. simpl. repeat split.
    + eexists _, _. split; [reflexivity|]. simpl. repeat split.
  - eexists _, _. split; [reflexivity|]. simpl. repeat split.
Qed.

(** C6. With [fromScratch] set the recovery decision answers "not
    recovered" and leaves the machine as it is: no existence check, no
    read, the snapshot kept. The whole run then asks the transport for no
    existence check and no read, and marks no instance. *)
Theorem fromScratch_skips_recovery (computationClasses : list Runnable)
    (input : JsValue) (m : Machine) :
  fromScratch (options (runner m)) = true ->
  maybeRecover m = (Normal false, m)
  /\ (exists evs,
         trace (snd (run computationClasses input m)) = trace m ++ evs
         /\ count is_exists evs = 0
         /\ count is_read evs = 0)
  /\ forall cls, hasRecoveryDataFlag (instance_for false cls) = false.
Proof.
  intros Hscratch. split; [apply maybeRecover_fromScratch; assumption|].
  split; [|reflexivity].
  unfold run. rewrite maybeRecover_fromScratch by assumption.
  destruct (run_loop false computationClasses input m) as [r m'] eqn:Hloop.
  destruct (run_loop_events _ _ _ _ _ _ Hloop) as (ids & w & Htrace & Hw).
  assert (count is_exists w = 0 /\ count is_read w = 0) as (Hw1 & Hw2).
  { destruct Hw as [->|(data & ? & ? & ? & ? & -> & _)]; split; reflexivity. }
  exists (map EvCall ids ++ w).
  destruct r; simpl; (split; [exact Htrace|]);
    rewrite !count_app, !count_calls by reflexivity; lia.
Qed.

(** X3. With nothing at the location the run is not recovered, and the
    transport is asked for the existence check only: nothing is read. *)
Lemma nothing_stored_means_no_read (m : Machine) (s : Store) :
  fromScratch (options (runner m)) = false ->
  t_exists (recoveryDataLocation (options (runner m))) (store m) = (Normal false, s) ->
  maybeRecover m = (Normal false, after_exists s m)
  /\ count is_read (trace (after_exists s m)) = count is_read (trace m).
Proof.
  intros Hscratch Hexists. rewrite maybeRecover_unfold by assumption. simpl.
  rewrite Hexists. split; [reflexivity|].
  rewrite count_app. unfold count at 2. simpl. lia.
Qed.

End RecoveryDecision.

(** ** Replay of a completed run *)

Section Replay.
Context `{host : Host}.



End Replay.

(** ** Failing runs *)

Section FailingRuns.
Context `{host : Host}.

Lemma message_of_truthy (error : JsValue) :
  truthy error = true -> exists text, message_of error = Normal text.
Proof. destruct error; simpl; intros H; try discriminate; eauto. Qed.

(** C4, as the code has it. The computations before [cls] complete and
    the [run] method of [cls] throws a truthy [error]; the transformer
    encodes the snapshot and the transport takes the write. Then, whatever
    follows [cls] in the list, [run] rejects with a
    [ComputationFailedError] whose cause is [error], whose step is the
    failing instance of [cls] and whose message names the class; the
    snapshot is the one the failing computation left with [error] set;
    the only event after the computation's own is one write of the
    encoding of that snapshot; nothing after [cls] has run. *)
Theorem failing_computation_is_saved_and_wrapped
    (before after : list Runnable) (cls : ComputationClass) (input v error : JsValue)
    (recovered : bool) (m m0 m1 m2 : Machine) (computation : PersistentComputation)
    (data : Bytes) (s3 : Store) :
  let location := recoveryDataLocation (options (runner m2)) in
  maybeRecover m = (Normal recovered, m0) ->
  run_loop recovered before input m0 = (Normal v, m1) ->
  exec (run_method cls v) (instance_for recovered cls) m1 = (Throw error, computation, m2) ->
  truthy error = true ->
  serialize (with_error error (recoveryData (runner m2))) = Normal data ->
  t_write location data (store m2) = (Normal tt, s3) ->
  exists failure text,
    run (before ++ AClass cls :: after) input m
    = (Throw (ComputationFailed failure),
       {| runner := set_recoveryData (with_error error (recoveryData (runner m2))) (runner m2);
          store := s3;
          trace := trace m2 ++ [EvWrite location data] |})
    /\ cause failure = error
    /\ step_of failure = computation
    /\ class_of computation = cls
    /\ message_of error = Normal text
    /\ message failure
       = "Computation failed on step " +:+ class_name cls
         +:+ " due to this error: " +:+ ToString text.
Proof.
  intros location Hrec Hbefore Hexec Htruthy Hser Hwrite.
  destruct (message_of_truthy error Htruthy) as [text Htext].
  destruct (exec_steps_only _ _ _ _ _ _ Hexec) as (_ & Hclass & _).
  rewrite instance_for_eq in Hclass. simpl in Hclass.
  exists {| message := "Computation failed on step " +:+ class_name cls
                       +:+ " due to this error: " +:+ ToString text;
            cause := error; step_of := computation |}, text.
  split; [|repeat split; assumption].
  unfold run. rewrite Hrec, run_loop_app, Hbefore, run_loop_class, Hexec.
  unfold run_catch. rewrite flushRecoveryData_unfold. simpl.
  unfold save. rewrite Htruthy. simpl. rewrite Hser.
  fold location. rewrite Hwrite.
  unfold newComputationFailedError. rewrite Htext, Hclass. reflexivity.
Qed.

(** C7. What the transport or the transformer throws reaches the caller
    as it was thrown, never inside a [ComputationFailedError]: from the
    existence check, the read and the decoding of the recovery decision,
    from the encoding and the write of an explicit flush, and from the
    flush of the [catch] block, where it takes the place of the
    computation's error. *)
Theorem capability_faults_propagate_unmodified (computationClasses : list Runnable)
    (input : JsValue) (m : Machine) (fault : JsValue) :
  let location := recoveryDataLocation (options (runner m)) in
  (fromScratch (options (runner m)) = false ->
   (forall s,
       t_exists location (store m) = (Throw fault, s) ->
       fst (run computationClasses input m) = Throw (Uncaught fault))
   /\ (forall s s',
          t_exists location (store m) = (Normal true, s) ->
          t_read location s = (Throw fault, s') ->
          fst (run computationClasses input m) = Throw (Uncaught fault))
   /\ (forall s s' data,
          t_exists location (store m) = (Normal true, s) ->
          t_read location s = (Normal data, s') ->
          deserialize data = Throw fault ->
          fst (run computationClasses input m) = Throw (Uncaught fault)))
  /\ (serialize (recoveryData (runner m)) = Throw fault ->
      flushRecoveryData m = (Throw fault, m))
  /\ (forall data s,
         serialize (recoveryData (runner m)) = Normal data ->
         t_write location data (store m) = (Throw fault, s) ->
         fst (flushRecoveryData m) = Throw fault)
  /\ (forall recovered m0 cls error computation m2,
         maybeRecover m = (Normal recovered, m0) ->
         fails_at recovered computationClasses input m0 cls error computation m2 ->
         fst (flushRecoveryData (with_runner (save error computation None) m2))
         = Throw fault ->
         fst (run computationClasses input m) = Throw (Uncaught fault)).
Proof.
  intros location. split; [|split; [|split]].
  - intros Hscratch. unfold run. rewrite maybeRecover_unfold by assumption.
    simpl. fold location. split; [|split].
    + intros s Hexists. rewrite Hexists. reflexivity.
    + intros s s' Hexists Hread. rewrite Hexists, Hread. reflexivity.
    + intros s s' data Hexists Hread Hdecode. rewrite Hexists, Hread, Hdecode. reflexivity.
  - intros Hser. rewrite flushRecoveryData_unfold. simpl. rewrite Hser. reflexivity.
  - intros data s Hser Hwrite. rewrite flushRecoveryData_unfold. simpl.
    rewrite Hser. fold location. rewrite Hwrite. reflexivity.
  - intros recovered m0 cls error computation m2 Hrec Hfail Hflush.
    unfold run. rewrite Hrec, (run_loop_fails _ _ _ _ _ _ _ _ Hfail).
    simpl. unfold run_catch.
    destruct (flushRecoveryData _) as [[u|x] m3]; simpl in Hflush; [discriminate|].
    injection Hflush as ->. reflexivity.
Qed.

End FailingRuns.

(** ** Reads and writes of a run *)

Section ReadsAndWrites.
Context `{host : Host}.



End ReadsAndWrites.

(** ** Keys, run lists and results *)

Section KeysAndResults.
Context `{host : Host}.

(** C8, as the code has it. The key of a computation's step results is
    the name of its class, [constructor.name]. For a name that reads as a
    list or as nothing in the snapshot, [save] completes and appends
    under that name. Under any name, [save] touches no other key, and
    [hasRecoveryData] and [getStepValue] answer the same for two instances
    whose classes have one name and whose cursors agree, whatever else the
    classes declare. *)
Theorem step_results_are_keyed_by_class_name (computation : PersistentComputation)
    (result : JsValue) (c : Context) :
  let key := class_name (class_of computation) in
  (own_or_absent key (computations (recoveryData c)) ->
   save_completion computation (Some result) c = Normal tt
   /\ computations (recoveryData (save VNull computation (Some result) c)) !! key
      = Some (default [] (computations (recoveryData c) !! key) ++ [result]))
  /\ (forall other,
         other ≠ key ->
         computations (recoveryData (save VNull computation (Some result) c)) !! other
         = computations (recoveryData c) !! other)
  /\ (forall twin : PersistentComputation,
         class_name (class_of twin) = key ->
         currentStepIndex twin = currentStepIndex computation ->
         hasRecoveryData twin c = hasRecoveryData computation c
         /\ getStepValue twin c = getStepValue computation c).
Proof.
  intros key. split; [|split].
  - intros Hplain. split; [apply save_completion_plain; assumption|].
    apply save_result_lookup. assumption.
  - intros other Hne. apply save_result_other. assumption.
  - intros twin Hname Hcursor. unfold hasRecoveryData, getStepValue.
    rewrite Hname, Hcursor. split; reflexivity.
Qed.

(** C9, the code at an instance. The loop constructs every element of
    the list with [new]; on an instance that throws a [TypeError] before
    the [try] block is entered. So a [run] whose list starts with an
    instance rejects, after the recovery decision, with that [TypeError],
    uncaught: the instance is not run, nothing after it is, no result is
    pushed and nothing is written. *)
Theorem run_rejects_an_instance (instance : PersistentComputation)
    (rest : list Runnable) (input : JsValue) (m : Machine) :
  run (AnInstance instance :: rest) input m
  = match maybeRecover m with
    | (Normal _, m0) =>
        (Throw (Uncaught (TypeError "Computation is not a constructor")), m0)
    | (Throw e, m0) => (Throw (Uncaught e), m0)
    end.
Proof.
  unfold run. destruct (maybeRecover m) as [[recovered|e] m0]; reflexivity.
Qed.

Lemma run_loop_results (recovered : bool) (computationClasses : list Runnable)
    (input : JsValue) (m m' : Machine) (r : completion Rejection JsValue) :
  run_loop recovered computationClasses input m = (r, m') ->
  exists rs, results (runner m') = results (runner m) ++ rs.
Proof.
  intros Hloop.
  destruct (run_loop_outcome _ _ _ _ _ _ Hloop) as [[v ->]|[Hi|Hf]].
  - destruct (run_loop_normal _ _ _ _ _ _ Hloop) as (_ & _ & _ & _ & _ & Hrs & _).
    exact Hrs.
  - destruct Hi as (before & instance & after & v & _ & Hbefore & _).
    destruct (run_loop_normal _ _ _ _ _ _ Hbefore) as (_ & _ & _ & _ & _ & Hrs & _).
    exact Hrs.
  - destruct Hf as (cls & thrown & computation & m2 & e & Hfail & Hcatch & _).
    destruct Hfail as (before & after & v & m1 & _ & Hbefore & Hexec).
    destruct (run_loop_normal _ _ _ _ _ _ Hbefore) as (_ & _ & _ & _ & _ & (rs & Hrs) & _).
    destruct (exec_steps_only _ _ _ _ _ _ Hexec) as ((_ & Hr & _) & _).
    destruct (run_catch_spec _ _ _ _ _ Hcatch) as (Hrunner & _).
    exists rs. rewrite Hrunner.
    destruct (save_error_only thrown computation (runner m2)) as (_ & -> & _).
    congruence.
Qed.

(** C10, as the code has it. The results are no part of what is written:
    a flush on a context holding any other list of results asks the
    transformer and the transport for the same, with the same outcome. The
    list starts empty with the context and a [run] only appends to it, so
    the results of earlier runs on the same context are still there. *)
Theorem results_are_not_persisted_and_accumulate (computationClasses : list Runnable)
    (input : JsValue) (m : Machine) :
  (forall rs,
      flushRecoveryData (with_runner (set_results rs) m)
      = (fst (flushRecoveryData m),
         with_runner (set_results rs) (snd (flushRecoveryData m))))
  /\ (forall opts deps, results (new_context opts deps) = [])
  /\ (forall r m',
         run computationClasses input m = (r, m') ->
         exists rs, results (runner m') = results (runner m) ++ rs).
Proof.
  split; [|split].
  - intros rs. rewrite !flushRecoveryData_unfold. simpl.
    destruct (serialize _) as [data|x]; [|reflexivity].
    destruct (t_write _ data (store m)) as [r s]. reflexivity.
  - reflexivity.
  - intros r m' Hrun. unfold run in Hrun.
    destruct (maybeRecover m) as [[recovered|e] m0] eqn:Hrec.
    + destruct (maybeRecover_effect _ _ _ Hrec) as (_ & Hr0 & _).
      destruct (run_loop recovered computationClasses input m0) as [r1 m1] eqn:Hloop.
      destruct (run_loop_results _ _ _ _ _ _ Hloop) as (rs & Hrs).
      assert (m' = m1) as -> by (destruct r1; congruence).
      exists rs. congruence.
    + injection Hrun as <- <-.
      destruct (maybeRecover_effect _ _ _ Hrec) as (_ & Hr0 & _).
      exists []. rewrite app_nil_r. exact Hr0.
Qed.

End KeysAndResults.

(** * The theorems at work on the test suite's computations *)

Import Examples.

(** The test "should not recalculate step if recovered value is falsy":
    the stored [false] is replayed, the second step is computed and
    appended; and a callback that throws at the second step. *)
Lemma step_replays_or_computes_witness :
  let h := transportWithData ∅ in
  let m : @Machine h :=
    {| runner := set_recoveryData snapshot_with_false (new_context defaultOptions []);
       store := tt; trace := [] |} in
  let self := instance_for true MultiStepComputation in
  step stepOneDataProvider self m = (Normal (VBool false), advance self, m)
  /\ (exists m',
         step stepTwoDataProvider (advance self) m
         = (Normal STEP_DATA_1, advance (advance self), m')
         /\ trace m' = [EvCall 2]
         /\ stepData_of self m' = Some [VBool false; STEP_DATA_1])
  /\ step flaky (advance self) m = (Throw EIO, advance self, record (EvCall 3) m).
Proof.
  intros h m self. split; [|split].
  - destruct (step_replays_or_computes (host := h) stepOneDataProvider self m)
      as (Hstored & _ & _).
    destruct (Hstored [VBool false] eq_refl) as (stored & Hat & Hstep).
    + vm_compute. lia.
    + vm_compute in Hat. injection Hat as <-. exact Hstep.
  - destruct (step_replays_or_computes (host := h) stepTwoDataProvider (advance self) m)
      as (_ & Hfresh & _).
    destruct Hfresh as (m' & Hstep & Htrace & Hdata & _).
    + intros stepData Hd. vm_compute in Hd. injection Hd as <-. vm_compute. lia.
    + intros Hnone. vm_compute in Hnone. discriminate.
    + exists m'. split; [exact Hstep|]. split; [exact Htrace|exact Hdata].
  - destruct (step_replays_or_computes (host := h) flaky (advance self) m)
      as (_ & Hfresh & _).
    apply Hfresh.
    + intros stepData Hd. vm_compute in Hd. injection Hd as <-. vm_compute. lia.
    + intros Hnone. vm_compute in Hnone. discriminate.
Defined.


(** The test "should not recover if recovered data was obtained with
    different dependencies", and the adoption of a matching snapshot. *)
Lemma recovery_decision_witness :
  (let h := mock_host true
              (Normal (DecodedObject
                         {| computations := ∅;
                            dependencies := VObj [("dep", VNum 2)];
                            error := None |}))
              (Normal tt) in
   exists m',
     maybeRecover (host := h) (boot h defaultOptions [("dep", VNum 1)] tt)
     = (Normal false, m')
     /\ recoveryData (runner m')
        = recoveryData (new_context defaultOptions [("dep", VNum 1)]))
  /\ (let h := transportWithData {[ "MultiStepComputation" := [VBool false] ]} in
      exists m',
        maybeRecover (host := h) (boot h defaultOptions [] tt) = (Normal true, m')
        /\ recoveryData (runner m') = snapshot_with_false).
Proof.
  split.
  - intros h.
    destruct (recovery_decision (host := h) (boot h defaultOptions [("dep", VNum 1)] tt)
                tt tt _ _ eq_refl eq_refl eq_refl eq_refl)
      as (recovered & m' & Hrec & _ & _ & Hcase & _).
    vm_compute in Hcase. destruct Hcase as [-> Hdata].
    exists m'. split; [exact Hrec|exact Hdata].
  - intros h.
    destruct (recovery_decision (host := h) (boot h defaultOptions [] tt)
                tt tt _ _ eq_refl eq_refl eq_refl eq_refl)
      as (recovered & m' & Hrec & _ & _ & Hcase & _).
    simpl in Hcase. destruct Hcase as [-> Hdata].
    exists m'. split; [exact Hrec|exact Hdata].
Defined.

(** The test "should write recoveryData to a file and be able to recover
    from it", first run, with one more computation after the failing one. *)
Lemma failing_computation_is_saved_and_wrapped_witness :
  exists failure m',
    run (host := fs_host)
      ([AClass OneStepComputation]
         ++ AClass ThrowingComputation :: [AClass MultiStepComputation])
      VUndefined (boot fs_host defaultOptions [] ∅)
    = (Throw (ComputationFailed failure), m')
    /\ cause failure = VError "BaseComputationError" "ComputationErrorMessage"
    /\ message failure
       = "Computation failed on step ThrowingComputation due to this error: ComputationErrorMessage"
    /\ error (recoveryData (runner m'))
       = Some (VError "BaseComputationError" "ComputationErrorMessage")
    /\ count is_write (trace m') = 1
    /\ count is_call (trace m') = 1.
Proof.
  set (m := boot fs_host defaultOptions [] ∅).
  set (m0 := snd (maybeRecover (host := fs_host) m)).
  set (m1 := snd (run_loop (host := fs_host) false [AClass OneStepComputation] VUndefined m0)).
  set (thrown := VError "BaseComputationError" "ComputationErrorMessage").
  set (data := DecodedObject (v8_clone_data (with_error thrown (recoveryData (runner m1))))).
  destruct (failing_computation_is_saved_and_wrapped (host := fs_host)
              [AClass OneStepComputation] [AClass MultiStepComputation]
              ThrowingComputation VUndefined STEP_DATA thrown false m m0 m1 m1
              (instance_for false ThrowingComputation) data
              (<[".recovery" := data]> (store m1))
              eq_refl eq_refl eq_refl eq_refl eq_refl eq_refl)
    as (failure & text & Hrun & Hcause & _ & _ & Htext & Hmessage).
  eexists failure, _. split; [exact Hrun|].
  split; [exact Hcause|].
  split; [rewrite Hmessage; injection Htext as <-; reflexivity|].
  split; [reflexivity|]. split; reflexivity.
Defined.


(** The test "should not recover if `fromScratch` options is true", with
    a snapshot in the file. *)
Lemma fromScratch_skips_recovery_witness :
  let opts := {| fromScratch := true; recoveryDataLocation := ".recovery" |} in
  let m := boot fs_host opts [] {[ ".recovery" := DecodedObject snapshot_with_false ]} in
  maybeRecover (host := fs_host) m = (Normal false, m)
  /\ (exists evs,
         trace (snd (run (host := fs_host) [AClass MultiStepComputation] VUndefined m))
         = trace m ++ evs
         /\ count is_exists evs = 0
         /\ count is_read evs = 0)
  /\ forall cls, hasRecoveryDataFlag (instance_for false cls) = false.
Proof.
  intros opts m.
  apply (fromScratch_skips_recovery (host := fs_host) [AClass MultiStepComputation]
           VUndefined m).
  reflexivity.
Defined.

(** A transport whose read fails, and one whose write fails after a
    computation threw: the caller gets the transport's error. *)
Lemma capability_faults_propagate_unmodified_witness :
  (let h := mock_host true (Throw EIO) (Normal tt) in
   fst (run (host := h) [AClass OneStepComputation] VUndefined
          (boot h defaultOptions [] tt))
   = Throw (Uncaught EIO))
  /\ (let h := mock_host false (Throw EIO) (Throw EIO) in
      fst (run (host := h) [AClass ThrowingComputation] VUndefined
             (boot h defaultOptions [] tt))
      = Throw (Uncaught EIO)).
Proof.
  split.
  - intros h.
    destruct (capability_faults_propagate_unmodified (host := h)
                [AClass OneStepComputation] VUndefined (boot h defaultOptions [] tt) EIO)
      as (Hrecovery & _).
    destruct (Hrecovery eq_refl) as (_ & Hread & _).
    apply (Hread tt tt); reflexivity.
  - intros h.
    destruct (capability_faults_propagate_unmodified (host := h)
                [AClass ThrowingComputation] VUndefined (boot h defaultOptions [] tt) EIO)
      as (_ & _ & _ & Hcatch).
    eapply Hcatch.
    + reflexivity.
    + eexists [], [], VUndefined, _. split; [reflexivity|]. split; reflexivity.
    + reflexivity.
Defined.

(** Two instances of classes with one name, at one cursor, read the same
    stored step. *)
Lemma step_results_are_keyed_by_class_name_witness :
  let c := save VNull (instance_for false OneStepComputation) (Some STEP_DATA)
             (new_context defaultOptions []) in
  let twin := instance_for true
                {| class_name := "OneStepComputation"; run_method := fun _ => Return VNull |} in
  computations (recoveryData c) !! "OneStepComputation" = Some [STEP_DATA]
  /\ hasRecoveryData twin c = hasRecoveryData (instance_for false OneStepComputation) c
  /\ getStepValue twin c = Normal STEP_DATA.
Proof.
  intros c twin.
  destruct (step_results_are_keyed_by_class_name (instance_for false OneStepComputation)
              STEP_DATA (new_context defaultOptions [])) as (Hkey & _ & _).
  destruct (step_results_are_keyed_by_class_name (instance_for false OneStepComputation)
              STEP_DATA c) as (_ & _ & Htwin).
  destruct (Htwin twin eq_refl eq_refl) as (Hhas & Hget).
  destruct Hkey as (_ & Hkey); [intros _; reflexivity|].
  split; [exact Hkey|]. split; [exact Hhas|]. rewrite Hget. reflexivity.
Defined.

(** Two runs on one context: the second starts with the first's result. *)
Lemma results_are_not_persisted_and_accumulate_witness :
  let m := boot fs_host defaultOptions [] ∅ in
  let m1 := snd (run (host := fs_host) [AClass OneStepComputation] VUndefined m) in
  let m2 := snd (run (host := fs_host) [AClass MultiStepComputation] VUndefined m1) in
  (exists rs, results (runner m2) = results (runner m1) ++ rs)
  /\ flushRecoveryData (host := fs_host) (with_runner (set_results []) m2)
     = (fst (flushRecoveryData m2),
        with_runner (set_results []) (snd (flushRecoveryData m2))).
Proof.
  intros m m1 m2.
  destruct (results_are_not_persisted_and_accumulate (host := fs_host)
              [AClass MultiStepComputation] VUndefined m1) as (_ & _ & Hrun).
  destruct (results_are_not_persisted_and_accumulate (host := fs_host)
              [AClass MultiStepComputation] VUndefined m2) as (Hflush & _ & _).
  split; [apply (Hrun _ m2 eq_refl)|apply Hflush].
Defined.

(** * Where the code departs from the specification *)

(** C1 at a callback that throws, and at a class named after a method of
    [Object.prototype]. On a new context, where no list is stored: the
    callback that throws is called, nothing is stored and the cursor of
    the instance stays at 0; and for the class named [hasOwnProperty] the
    callback is not called, [undefined] is returned and the cursor
    moves. *)
Lemma step_without_result_or_without_call :
  let h := transportWithData ∅ in
  let m : @Machine h := boot h defaultOptions [] tt in
  let self := instance_for false OneStepComputation in
  let named := instance_for false hasOwnPropertyComputation in
  step flaky self m = (Throw EIO, self, record (EvCall 3) m)
  /\ currentStepIndex self = 0
  /\ stepData_of self (record (EvCall 3) m) = None
  /\ stepData_of named m = None
  /\ step dataProvider named m = (Normal VUndefined, advance named, m).
Proof. vm_compute. repeat split; reflexivity. Qed.


(** C4 at a falsy error. A [run] method that rejects with [undefined]:
    [save] skips a falsy error, so none is recorded, and the
    construction of the wrapped error throws on [error.message], so the
    caller gets a [TypeError] and no [ComputationFailedError]. *)
Lemma falsy_error_is_neither_saved_nor_wrapped :
  let h := transportWithData ∅ in
  let outcome := run (host := h) [AClass RejectingComputation] VUndefined
                   (boot h defaultOptions [] tt) in
  fst outcome
  = Throw (Uncaught
             (TypeError "Cannot read properties of undefined (reading 'message')"))
  /\ error (recoveryData (runner (snd outcome))) = None
  /\ count is_write (trace (snd outcome)) = 1.
Proof. vm_compute. repeat split; reflexivity. Qed.

(** C8 at a renamed class. The class of the test suite and the same
    class under another name: what the first stored is not found by the
    second, whose callback is called again. *)
Lemma renamed_class_loses_its_steps :
  let c := save VNull (instance_for false OneStepComputation) (Some STEP_DATA)
             (new_context defaultOptions []) in
  run_method RenamedComputation = run_method OneStepComputation
  /\ hasRecoveryData (instance_for false OneStepComputation) c = true
  /\ hasRecoveryData (instance_for false RenamedComputation) c = false
  /\ computations (recoveryData c) !! "OneStepComputation" = Some [STEP_DATA]
  /\ computations (recoveryData c) !! "a" = None.
Proof. vm_compute. repeat split; reflexivity. Qed.

(** C10 on a context used twice. After the second [run] the list holds the
    result of the first run too, and that is the one [getResult] finds. *)
Lemma results_survive_the_run :
  let m := boot fs_host defaultOptions [] ∅ in
  let m1 := snd (run (host := fs_host) [AClass OneStepComputation] VUndefined m) in
  let m2 := snd (run (host := fs_host) [AClass OneStepComputation] VNull m1) in
  results (runner m1) = [{| name := "OneStepComputation"; value := STEP_DATA |}]
  /\ results (runner m2)
     = [{| name := "OneStepComputation"; value := STEP_DATA |};
        {| name := "OneStepComputation"; value := STEP_DATA |}]
  /\ length (results (runner m2)) = 2.
Proof. vm_compute. repeat split; reflexivity. Qed.

(** * Further examples *)

(** The second step of [MultiStepComputation] on a new context. *)
Lemma every_step_call_is_in_range_witness :
  let h := transportWithData ∅ in
  let m : @Machine h := boot h defaultOptions [] tt in
  let self := instance_for false MultiStepComputation in
  cursor_in_range (advance self) (snd (step stepOneDataProvider self m))
  /\ class_of (advance self) = MultiStepComputation.
Proof.
  intros h m self.
  apply (every_step_call_is_in_range (host := h) false MultiStepComputation VUndefined
           m stepTwoDataProvider).
  - intros _. reflexivity.
  - eapply calls_later; [reflexivity|apply calls_first].
Defined.

(** The failing run of the test suite keeps what [OneStepComputation]
    stored. *)
Lemma run_loop_only_extends_the_snapshot_witness :
  let m := boot fs_host defaultOptions [] ∅ in
  let m' := snd (run_loop (host := fs_host) false
                   [AClass OneStepComputation; AClass ThrowingComputation] VUndefined m) in
  extends (computations (recoveryData (runner m)))
    (computations (recoveryData (runner m')))
  /\ dependencies (recoveryData (runner m')) = dependencies (recoveryData (runner m)).
Proof.
  intros m m'.
  apply (run_loop_only_extends_the_snapshot (host := fs_host) false
           [AClass OneStepComputation; AClass ThrowingComputation] VUndefined m m' _ eq_refl).
Defined.

(** The test "should not recover if exists returns false". *)
Lemma nothing_stored_means_no_read_witness :
  let m := boot fs_host defaultOptions [] ∅ in
  maybeRecover (host := fs_host) m = (Normal false, after_exists ∅ m)
  /\ count is_read (trace (after_exists (host := fs_host) ∅ m)) = count is_read (trace m).
Proof.
  intros m. apply (nothing_stored_means_no_read (host := fs_host) m ∅); reflexivity.
Defined.


(** The default transport's write replaces the file: after a flush the
    location holds the encoding of the current snapshot, whatever it held
    before. *)
Lemma default_transport_write_replaces (m : @Machine fs_host) :
  store (snd (flushRecoveryData (host := fs_host) m))
  !! recoveryDataLocation (options (runner m))
  = Some (DecodedObject (v8_clone_data (recoveryData (runner m)))).
Proof.
  rewrite flushRecoveryData_unfold. simpl. apply lookup_insert_eq.
Qed.

(** * More of the code *)

(** ** Options *)

Section OptionsProperties.
Context {V : Type}.

(** X5. [create] answers the default keys and no other. When the options
    object brings no name that the copy merely inherits, a key of the
    object that is no default never enters; under a default key the
    result holds the value the options object gives for it, and the
    default when the object does not have the key or has it as
    [undefined]. *)
Theorem create_overrides_known_defined_keys_only (inherited : string -> bool)
    (defaultOptions : gmap string V) (optionsObject : list (string * option V)) :
  NoDup optionsObject.*1 ->
  (forall key, key ∈ optionsObject.*1 -> defaultOptions !! key = None ->
               inherited key = false) ->
  exists options,
    create inherited defaultOptions optionsObject = Some options
    /\ forall key,
         options !! key
         = match defaultOptions !! key with
           | None => None
           | Some default_value =>
               Some match (list_to_map optionsObject : gmap string (option V)) !! key with
                    | Some (Some given) => given
                    | _ => default_value
                    end
           end.
Proof.
  unfold create. revert defaultOptions.
  induction optionsObject as [|[k x] rest IH]; intros defaults Hnodup Hplain.
  - exists defaults. split; [reflexivity|].
    intros key. simpl. destruct (defaults !! key); reflexivity.
  - apply NoDup_cons in Hnodup as [Hfresh Hnodup].
    assert ((list_to_map rest : gmap string (option V)) !! k = None) as Hk.
    { apply not_elem_of_list_to_map_1. exact Hfresh. }
    assert (forall key, key ∈ rest.*1 -> defaults !! key = None -> inherited key = false)
      as Hrest.
    { intros key Hin. apply Hplain. simpl. right. exact Hin. }
    simpl. unfold create_entry at 2. simpl.
    destruct x as [given|].
    + destruct (defaults !! k) as [dv|] eqn:Hd.
      * destruct (IH (<[k := given]> defaults) Hnodup) as (options & -> & Hoptions).
        { intros key Hin Hnone. apply lookup_insert_None in Hnone as [Hnone _].
          apply Hrest; assumption. }
        exists options. split; [reflexivity|].
        intros key. rewrite Hoptions.
        destruct (decide (k = key)) as [->|Hne].
        -- rewrite !lookup_insert_eq, Hd, Hk. reflexivity.
        -- rewrite !lookup_insert_ne by assumption. reflexivity.
      * rewrite (Hplain k) by (simpl; first [left; reflexivity|assumption]).
        destruct (IH defaults Hnodup Hrest) as (options & -> & Hoptions).
        exists options. split; [reflexivity|].
        intros key. rewrite Hoptions.
        destruct (decide (k = key)) as [->|Hne].
        -- rewrite Hd. reflexivity.
        -- rewrite lookup_insert_ne by assumption. reflexivity.
    + destruct (IH defaults Hnodup Hrest) as (options & -> & Hoptions).
      exists options. split; [reflexivity|].
      intros key. rewrite Hoptions.
      destruct (decide (k = key)) as [->|Hne].
      -- rewrite lookup_insert_eq, Hk. reflexivity.
      -- rewrite lookup_insert_ne by assumption. reflexivity.
Qed.

End OptionsProperties.

(** ** Logging *)

(** X6. The level gates the logger in steps: below [DEBUG] neither
    [debug] nor [verbose] calls it; from [DEBUG] on [debug] calls it once,
    with ['debug'] before the arguments; from [VERBOSE] on [verbose] does
    too, with ['verbose']. So whatever level lets [verbose] through lets
    [debug] through. *)
Theorem logging_is_gated_by_level (debugLevel : Z) (args : list JsValue)
    (calls : list (list JsValue)) :
  ((debugLevel < DEBUG_LEVEL_DEBUG)%Z ->
   debug debugLevel args calls = calls /\ verbose debugLevel args calls = calls)
  /\ ((DEBUG_LEVEL_DEBUG <= debugLevel < DEBUG_LEVEL_VERBOSE)%Z ->
      debug debugLevel args calls = calls ++ [VStr "debug" :: args]
      /\ verbose debugLevel args calls = calls)
  /\ ((DEBUG_LEVEL_VERBOSE <= debugLevel)%Z ->
      debug debugLevel args calls = calls ++ [VStr "debug" :: args]
      /\ verbose debugLevel args calls = calls ++ [VStr "verbose" :: args]).
Proof.
  unfold debug, verbose, log, DEBUG_LEVEL_DEBUG, DEBUG_LEVEL_VERBOSE.
  destruct (Z.leb_spec 1 debugLevel), (Z.leb_spec 2 debugLevel);
    repeat split; intros; first [reflexivity|lia].
Qed.

(** ** Results of a run *)

Section Results.
Context `{host : Host}.

Lemma last_cons_default {A} (x d : A) (l : list A) :
  default d (last (x :: l)) = default x (last l).
Proof. destruct l as [|y l]; [reflexivity|]. rewrite last_cons_cons. clear.
  revert y. induction l as [|z l IH]; intros y; [reflexivity|].
  rewrite !last_cons_cons. apply IH.
Qed.

(** A loop that completes has pushed one result per element of the list,
    in order, each under the name of its class; the value it yields is
    the last one pushed (the input for an empty list). *)
Lemma run_loop_completed_results (recovered : bool)
    (computationClasses : list Runnable) :
  forall (input v : JsValue) (m m' : Machine),
    run_loop recovered computationClasses input m = (Normal v, m') ->
    exists rs,
      results (runner m') = results (runner m) ++ rs
      /\ map name rs = class_names computationClasses
      /\ default input (last (map value rs)) = v.
Proof.
  induction computationClasses as [|[cls|instance] rest IH]; intros input v m m'.
  - simpl. intros [= <- <-]. exists []. rewrite app_nil_r. repeat split.
  - rewrite run_loop_class.
    destruct (exec _ _ m) as [[[v1|thrown] computation] m1] eqn:Hexec;
      [|destruct (run_catch thrown computation m1); discriminate].
    intros Hrest.
    destruct (exec_steps_only _ _ _ _ _ _ Hexec) as ((_ & Hr & _) & Hclass & _).
    rewrite instance_for_eq in Hclass. simpl in Hclass.
    destruct (IH _ _ _ _ Hrest) as (rs & Hrs & Hnames & Hlast).
    exists ({| name := class_name cls; value := v1 |} :: rs).
    split; [|split].
    + rewrite Hrs. simpl. rewrite Hr, Hclass, <- app_assoc. reflexivity.
    + simpl. rewrite Hnames. reflexivity.
    + simpl map. rewrite last_cons_default. exact Hlast.
  - simpl. discriminate.
Qed.

Lemma find_name_app (n : string) (l1 l2 : list RunResult) :
  find (fun r => String.eqb (name r) n) (l1 ++ l2)
  = match find (fun r => String.eqb (name r) n) l1 with
    | Some r => Some r
    | None => find (fun r => String.eqb (name r) n) l2
    end.
Proof.
  induction l1 as [|r l1 IH]; simpl; [reflexivity|].
  destruct (String.eqb (name r) n); [reflexivity|exact IH].
Qed.

Lemma find_name_spec (n : string) (l : list RunResult) :
  match find (fun r => String.eqb (name r) n) l with
  | Some r => name r = n /\ In n (map name l)
  | None => ~ In n (map name l)
  end.
Proof.
  induction l as [|r l IH]; simpl; [tauto|].
  destruct (String.eqb_spec (name r) n) as [Heq|Hne].
  - split; [exact Heq|left; exact Heq].
  - destruct (find _ l) as [found|]; [|intros [?|?]; tauto].
    split; [apply IH|right; apply IH].
Qed.

(** X7. A [run] that completes resolves with [getLastResult()]. For a
    list that ends with the class [cls] that is the result pushed last:
    the name of [cls] with the value that the [run] method of [cls]
    returned, on the input the loop handed it after the computations
    before it. For the empty list it is whatever result was last before
    the call (none on a new context). *)
Theorem completed_run_returns_the_last_result (computationClasses : list Runnable)
    (input : JsValue) (m m' : Machine) (r : option RunResult) :
  run computationClasses input m = (Normal r, m') ->
  r = getLastResult (runner m')
  /\ (computationClasses = [] -> r = getLastResult (runner m))
  /\ forall before cls,
       computationClasses = before ++ [AClass cls] ->
       exists recovered m0 handed m1 returned computation m2,
         maybeRecover m = (Normal recovered, m0)
         /\ run_loop recovered before input m0 = (Normal handed, m1)
         /\ exec (run_method cls handed) (instance_for recovered cls) m1
            = (Normal returned, computation, m2)
         /\ r = Some {| name := class_name cls; value := returned |}
         /\ results (runner m')
            = results (runner m1) ++ [{| name := class_name cls; value := returned |}].
Proof.
  intros Hrun. unfold run in Hrun.
  destruct (maybeRecover m) as [[recovered|e] m0] eqn:Hrec; [|discriminate].
  destruct (run_loop recovered computationClasses input m0) as [[v|e] m3] eqn:Hloop;
    [|discriminate].
  injection Hrun as <- <-. split; [reflexivity|]. split.
  - intros ->. simpl in Hloop. injection Hloop as <- <-.
    destruct (maybeRecover_effect _ _ _ Hrec) as (_ & Hr0 & _).
    unfold getLastResult. rewrite Hr0. reflexivity.
  - intros before cls ->. rewrite run_loop_app in Hloop.
    destruct (run_loop recovered before input m0) as [[handed|e] m1] eqn:Hbefore;
      [|discriminate].
    rewrite run_loop_class in Hloop.
    destruct (exec (run_method cls handed) (instance_for recovered cls) m1)
      as [[[returned|thrown] computation] m2] eqn:Hexec;
      [|destruct (run_catch thrown computation m2); discriminate].
    simpl in Hloop. injection Hloop as <- <-.
    destruct (exec_steps_only _ _ _ _ _ _ Hexec) as ((_ & Hr & _) & Hclass & _).
    rewrite instance_for_eq in Hclass. simpl in Hclass.
    exists recovered, m0, handed, m1, returned, computation, m2.
    split; [reflexivity|]. split; [exact Hbefore|]. split; [exact Hexec|].
    unfold getLastResult. simpl. rewrite Hclass, Hr, last_snoc.
    split; reflexivity.
Qed.

(** X8. After a [run] that completed, [getResultByName] (and so
    [getResult], which asks it for the class's name) finds a result under
    a name exactly when the name is that of a result the context held
    before or of an element of the list, and what it finds carries that
    name. A result held before the call under a name is still the one
    found: the earlier result shadows the new one. *)
Theorem results_are_found_by_class_name (computationClasses : list Runnable)
    (input : JsValue) (m m' : Machine) (r : option RunResult) :
  run computationClasses input m = (Normal r, m') ->
  (forall n,
      (exists found, getResultByName n (runner m') = Some found /\ name found = n)
      <-> In n (map name (results (runner m)) ++ class_names computationClasses))
  /\ (forall cls, getResult cls (runner m') = getResultByName (class_name cls) (runner m'))
  /\ (forall n old,
         getResultByName n (runner m) = Some old ->
         getResultByName n (runner m') = Some old).
Proof.
  intros Hrun. unfold run in Hrun.
  destruct (maybeRecover m) as [[recovered|e] m0] eqn:Hrec; [|discriminate].
  destruct (run_loop recovered computationClasses input m0) as [[v|e] m1] eqn:Hloop;
    [|discriminate].
  injection Hrun as <- <-.
  destruct (maybeRecover_effect _ _ _ Hrec) as (_ & Hr0 & _).
  destruct (run_loop_completed_results _ _ _ _ _ _ Hloop) as (rs & Hrs & Hnames & _).
  unfold getResultByName. rewrite Hrs, Hr0. split; [|split].
  - intros n. rewrite <- Hnames, <- map_app.
    pose proof (find_name_spec n (results (runner m) ++ rs)) as Hspec.
    destruct (find _ (results (runner m) ++ rs)) as [found|].
    + split; [intros _; apply Hspec|]. intros _. exists found. split; [reflexivity|apply Hspec].
    + split; [intros (found & Hf & _); discriminate|]. intros Hin. contradiction.
  - intros cls. unfold getResult, getResultByName. rewrite Hrs, Hr0. reflexivity.
  - intros n old Hold. rewrite find_name_app, Hold. reflexivity.
Qed.

(** X9. A [run] that fails keeps the results of the computations that
    completed before the failing one, and pushes none for it: the results
    after the call are those the completed part of the list had pushed,
    one per element and under its class's name. *)
Theorem failed_run_keeps_the_completed_results (recovered : bool)
    (before after : list Runnable) (cls : ComputationClass) (input v thrown : JsValue)
    (m0 m1 m2 : Machine) (computation : PersistentComputation) :
  run_loop recovered before input m0 = (Normal v, m1) ->
  exec (run_method cls v) (instance_for recovered cls) m1 = (Throw thrown, computation, m2) ->
  exists rs,
    results (runner (snd (run_loop recovered (before ++ AClass cls :: after) input m0)))
    = results (runner m0) ++ rs
    /\ map name rs = class_names before.
Proof.
  intros Hbefore Hexec.
  destruct (run_loop_completed_results _ _ _ _ _ _ Hbefore) as (rs & Hrs & Hnames & _).
  exists rs. split; [|exact Hnames].
  rewrite run_loop_app, Hbefore, run_loop_class, Hexec.
  destruct (run_catch thrown computation m2) as [e m3] eqn:Hcatch. simpl.
  destruct (run_catch_spec _ _ _ _ _ Hcatch) as (Hrunner & _).
  destruct (exec_steps_only _ _ _ _ _ _ Hexec) as ((_ & Hr & _) & _).
  rewrite Hrunner.
  destruct (save_error_only thrown computation (runner m2)) as (_ & -> & _).
  congruence.
Qed.

End Results.

(** ** Steps stored and replayed *)

Section StoredSteps.
Context `{host : Host}.

(** X10. For a class whose name reads as a list or as nothing in the
    snapshot, [save] completes, and what it stores for an instance whose
    cursor stands at the end of its class's list is what
    [hasRecoveryData] then finds and [getStepValue] returns at that
    cursor; the next cursor has no data yet; and every earlier cursor of
    the class reads what it read before. *)
Theorem saved_step_is_found_again (self : PersistentComputation) (result : JsValue)
    (c : Context) :
  let key := class_name (class_of self) in
  let stored := default [] (computations (recoveryData c) !! key) in
  let c' := save VNull self (Some result) c in
  own_or_absent key (computations (recoveryData c)) ->
  currentStepIndex self = length stored ->
  save_completion self (Some result) c = Normal tt
  /\ hasRecoveryData self c' = true
  /\ getStepValue self c' = Normal result
  /\ hasRecoveryData (advance self) c' = false
  /\ forall earlier : PersistentComputation,
       class_of earlier = class_of self ->
       currentStepIndex earlier < currentStepIndex self ->
       hasRecoveryData earlier c' = true
       /\ getStepValue earlier c' = getStepValue earlier c.
Proof.
  intros key stored c' Hplain Hcursor.
  assert (computations (recoveryData c') !! key = Some (stored ++ [result])) as Hnew
    by (apply save_result_lookup; exact Hplain).
  assert (forall other : PersistentComputation,
             class_of other = class_of self ->
             read_computations (computations (recoveryData c'))
               (class_name (class_of other))
             = OwnArray (stored ++ [result])) as Hread.
  { intros other ->. apply read_computations_own. exact Hnew. }
  split; [apply save_completion_plain; exact Hplain|].
  unfold hasRecoveryData, getStepValue.
  rewrite (Hread self eq_refl), (Hread (advance self) eq_refl).
  rewrite length_app. simpl length. simpl currentStepIndex.
  split; [|split; [|split]].
  - destruct (Nat.leb_spec (length stored + 1) (currentStepIndex self)); [lia|reflexivity].
  - rewrite lookup_app_r by lia. rewrite Hcursor, Nat.sub_diag. reflexivity.
  - destruct (Nat.leb_spec (length stored + 1) (currentStepIndex self + 1)); [reflexivity|lia].
  - intros earlier Hclass Hlt. rewrite (Hread earlier Hclass), length_app. simpl length.
    split.
    + destruct (Nat.leb_spec (length stored + 1) (currentStepIndex earlier)); [lia|reflexivity].
    + rewrite lookup_app_l by lia. rewrite Hclass. fold key.
      rewrite read_computations_plain by exact Hplain. subst stored.
      destruct (computations (recoveryData c) !! key) as [l|];
        [reflexivity|]. simpl in Hcursor. lia.
Qed.

Lemma step_counts (fn : StepFn) (self self' : PersistentComputation) (m m' : Machine)
    (r : completion JsValue JsValue) :
  step fn self m = (r, self', m') ->
  own_or_absent (class_name (class_of self)) (computations (recoveryData (runner m))) ->
  cursor_in_range self m ->
  let K := length (default [] (stepData_of self m)) in
  let K' := length (default [] (stepData_of self m')) in
  K' = Nat.max K (currentStepIndex self')
  /\ K <= K'
  /\ exists ids,
       trace m' = trace m ++ map EvCall ids
       /\ match r with
          | Normal _ => length ids = K' - K
          | Throw _ => K' - K <= length ids <= K' - K + 1
          end.
Proof.
  unfold step, cursor_in_range. intros Hstep Hplain Hrange.
  destruct (hasRecoveryData self (runner m)) eqn:Hhas.
  - apply hasRecoveryData_true in Hhas as (stepData & Hdata & Hlt); [|assumption].
    destruct (hasRecoveryData_own self m stepData Hdata) as [_ Hget].
    rewrite Hget in Hstep.
    injection Hstep as <- <- <-. rewrite Hdata. simpl.
    split; [lia|]. split; [lia|]. exists []. simpl. rewrite app_nil_r.
    split; [reflexivity|lia].
  - apply hasRecoveryData_false in Hhas; [|assumption].
    destruct (fn_call fn) as [result|e].
    + change (runner (record (EvCall (fn_id fn)) m)) with (runner m) in Hstep.
      rewrite save_completion_plain in Hstep by assumption.
      injection Hstep as <- <- <-.
      rewrite (save_result_stepData self result (record (EvCall (fn_id fn)) m))
        by assumption.
      change (stepData_of self (record (EvCall (fn_id fn)) m)) with (stepData_of self m).
      simpl. rewrite length_app. simpl.
      split; [lia|]. split; [lia|]. exists [fn_id fn]. split; [reflexivity|simpl; lia].
    + injection Hstep as <- <- <-.
      change (stepData_of self (record (EvCall (fn_id fn)) m)) with (stepData_of self m).
      simpl. split; [lia|]. split; [lia|]. exists [fn_id fn].
      split; [reflexivity|simpl; lia].
Qed.

Lemma exec_counts (b : Body) :
  propagates b ->
  forall (self self' : PersistentComputation) (m m' : Machine)
         (r : completion JsValue JsValue),
    exec b self m = (r, self', m') ->
    own_or_absent (class_name (class_of self)) (computations (recoveryData (runner m))) ->
    cursor_in_range self m ->
    let K := length (default [] (stepData_of self m)) in
    let K' := length (default [] (stepData_of self m')) in
    K' = Nat.max K (currentStepIndex self')
    /\ K <= K'
    /\ exists ids,
         trace m' = trace m ++ map EvCall ids
         /\ match r with
            | Normal _ => length ids = K' - K
            | Throw _ => K' - K <= length ids <= K' - K + 1
            end.
Proof.
  induction b as [v|e|fn k IH|k IH|k IH]; intros Hthrough self self' m m' r; simpl.
  - intros [= <- <- <-] _ Hrange. unfold cursor_in_range in Hrange.
    split; [lia|]. split; [lia|]. exists []. simpl. rewrite app_nil_r.
    split; [reflexivity|lia].
  - intros [= <- <- <-] _ Hrange. unfold cursor_in_range in Hrange.
    split; [lia|]. split; [lia|]. exists []. simpl. rewrite app_nil_r.
    split; [reflexivity|lia].
  - inversion Hthrough as [| |fn0 k0 Hraise Hnext| |]; subst.
    destruct (step fn self m) as [[[v|e] self1] m1] eqn:Hstep.
    + intros Hexec Hplain Hrange.
      destruct (step_steps_only _ _ _ _ _ _ Hstep) as (Hs1 & Hclass & _ & Hc1 & Hrange1).
      destruct (exec_steps_only _ _ _ _ _ _ Hexec) as (_ & _ & _ & Hc2 & _).
      destruct (step_counts _ _ _ _ _ _ Hstep Hplain Hrange) as (Hmax1 & Hle1 & ids1 & Ht1 & Hn1).
      destruct (IH (Normal v) (Hnext v) _ _ _ _ _ Hexec)
        as (Hmax2 & Hle2 & ids2 & Ht2 & Hn2).
      { rewrite Hclass. apply (steps_only_own_or_absent _ _ _ Hs1). exact Hplain. }
      { apply Hrange1; assumption. }
      assert (forall mx, stepData_of self1 mx = stepData_of self mx) as Hsame
        by (intros mx; unfold stepData_of; rewrite Hclass; reflexivity).
      rewrite !Hsame in Hmax2, Hle2, Hn2.
      simpl in *. split; [lia|]. split; [lia|].
      exists (ids1 ++ ids2). rewrite Ht2, Ht1, map_app, app_assoc, length_app.
      split; [reflexivity|]. destruct r; lia.
    + rewrite Hraise. simpl. intros [= <- <- <-] Hplain Hrange.
      apply (step_counts _ _ _ _ _ _ Hstep Hplain Hrange).
  - inversion Hthrough as [| | |k0 Hnext|]; subst. apply IH, Hnext.
  - inversion Hthrough as [| | | |k0 Hnext]; subst. apply IH, Hnext.
Qed.

(** X11. Partial replay. A [run] method without a [try] around a step, of
    a class whose name reads as a list or as nothing in the snapshot,
    that starts at cursor 0 over a class list of [K] stored results and
    completes after [M] steps has called exactly [M - K] step callbacks
    (none when [M <= K]) and left [max K M] results in the list. When it
    throws it has called at most one callback more than it stored
    results. *)
Theorem run_method_calls_only_the_missing_steps (recovered : bool)
    (cls : ComputationClass) (input : JsValue) (m m' : Machine)
    (self' : PersistentComputation) (r : completion JsValue JsValue) :
  propagates (run_method cls input) ->
  own_or_absent (class_name cls) (computations (recoveryData (runner m))) ->
  exec (run_method cls input) (instance_for recovered cls) m = (r, self', m') ->
  let K := length (default [] (computations (recoveryData (runner m)) !! class_name cls)) in
  let K' := length (default [] (computations (recoveryData (runner m')) !! class_name cls)) in
  let M := currentStepIndex self' in
  K' = Nat.max K M
  /\ match r with
     | Normal _ => count is_call (trace m') = count is_call (trace m) + (M - K)
     | Throw _ =>
         count is_call (trace m') <= count is_call (trace m) + (M - K) + 1
     end.
Proof.
  intros Hthrough Hplain Hexec K K' M.
  destruct (exec_counts _ Hthrough _ _ _ _ _ Hexec) as (Hmax & Hle & ids & Ht & Hn).
  { rewrite instance_for_eq. exact Hplain. }
  { unfold cursor_in_range. rewrite instance_for_eq. simpl. lia. }
  unfold stepData_of in Hmax, Hle, Hn. rewrite instance_for_eq in Hmax, Hle, Hn.
  simpl in Hmax, Hle, Hn. fold K K' M in Hmax, Hle, Hn.
  split; [exact Hmax|].
  rewrite Ht, count_app, count_is_call_calls. destruct r; lia.
Qed.

Lemma step_own_key (fn : StepFn) (self self' : PersistentComputation) (m m' : Machine)
    (r : completion JsValue JsValue) (key : string) :
  step fn self m = (r, self', m') ->
  key ≠ class_name (class_of self) ->
  computations (recoveryData (runner m')) !! key
  = computations (recoveryData (runner m)) !! key.
Proof.
  unfold step. intros Hstep Hne.
  destruct (hasRecoveryData self (runner m)).
  - destruct (getStepValue self (runner m)); injection Hstep as <- <- <-; reflexivity.
  - destruct (fn_call fn) as [result|e]; [|injection Hstep as <- <- <-; reflexivity].
    destruct (save_completion _ _ _); injection Hstep as <- <- <-;
      apply (save_result_other self result (runner (record (EvCall (fn_id fn)) m)) key Hne).
Qed.

(** X12. A [run] method writes under the name of its own class only:
    the step results of every other name are after it what they were
    before, however it ends. *)
Theorem run_method_touches_only_its_own_key (b : Body) :
  forall (self self' : PersistentComputation) (m m' : Machine)
         (r : completion JsValue JsValue) (key : string),
    exec b self m = (r, self', m') ->
    key ≠ class_name (class_of self) ->
    computations (recoveryData (runner m')) !! key
    = computations (recoveryData (runner m)) !! key.
Proof.
  induction b as [v|e|fn k IH|k IH|k IH]; intros self self' m m' r key; simpl.
  - intros [= <- <- <-] _. reflexivity.
  - intros [= <- <- <-] _. reflexivity.
  - destruct (step fn self m) as [[outcome self1] m1] eqn:Hstep.
    intros Hexec Hne.
    destruct (step_steps_only _ _ _ _ _ _ Hstep) as (_ & Hclass & _).
    rewrite (IH _ _ _ _ _ _ _ Hexec) by (rewrite Hclass; exact Hne).
    eapply step_own_key; eassumption.
  - apply IH.
  - apply IH.
Qed.

(** X18. A class named after a member of [Object.prototype], on a
    snapshot that owns no list under the name. Under the name of a method
    with [arity] parameters, a step call at a cursor below [arity] returns
    [undefined], without calling the callback, and moves the cursor; at
    any cursor from [arity] on it calls the callback and, when the
    callback returns, throws the [TypeError] of [save], whose [push] is
    not a function: nothing is stored and the cursor stays. Under the name
    [__proto__] every step call returns [undefined] without calling the
    callback. *)
Theorem inherited_name_is_replayed_then_rejected (fn : StepFn)
    (self : PersistentComputation) (m : Machine) (member : Inherited) :
  let cursor := currentStepIndex self in
  stepData_of self m = None ->
  Object_prototype_member (class_name (class_of self)) = Some member ->
  match member with
  | InheritedFunction arity =>
      (cursor < arity -> step fn self m = (Normal VUndefined, advance self, m))
      /\ (arity <= cursor ->
          forall result,
            fn_call fn = Normal result ->
            exists m',
              step fn self m
              = (Throw (TypeError
                          "this.recoveryData.computations[step.constructor.name].push is not a function"),
                 self, m')
              /\ trace m' = trace m ++ [EvCall (fn_id fn)]
              /\ recoveryData (runner m') = recoveryData (runner m))
  | InheritedPrototype => step fn self m = (Normal VUndefined, advance self, m)
  end.
Proof.
  intros cursor Hnone Hmember.
  assert (read_computations (computations (recoveryData (runner m)))
            (class_name (class_of self)) = FromPrototype member) as Hread.
  { apply read_computations_inherited. split; assumption. }
  assert (forall result,
             recoveryData (save VNull self (Some result) (runner m))
             = recoveryData (runner m)) as Hsave.
  { intros result. unfold save. simpl. rewrite Hread.
    destruct (recoveryData (runner m)). reflexivity. }
  unfold step, hasRecoveryData, getStepValue, save_completion. simpl.
  rewrite Hread. destruct member as [arity|]; [|reflexivity]. split.
  - intros Hlt. destruct (Nat.leb_spec arity (currentStepIndex self)); [|reflexivity].
    unfold cursor in Hlt. lia.
  - intros Hle result ->.
    destruct (Nat.leb_spec arity (currentStepIndex self)); [|unfold cursor in Hle; lia].
    eexists. split; [reflexivity|]. split; [reflexivity|]. apply Hsave.
Qed.

End StoredSteps.

(** ** The recovered flag *)

Section RecoveredFlag.
Context `{host : Host}.

Lemma step_whatever_the_flag (fn : StepFn) (cls : ComputationClass) (f1 f2 : bool)
    (n : nat) (m : Machine) :
  exists r n' m',
    step fn (Build_PersistentComputation cls f1 n) m
    = (r, Build_PersistentComputation cls f1 n', m')
    /\ step fn (Build_PersistentComputation cls f2 n) m
       = (r, Build_PersistentComputation cls f2 n', m').
Proof.
  unfold step, hasRecoveryData, getStepValue, save_completion. simpl.
  destruct (read_computations _ _) as [stepData|[arity|]|];
    try destruct (_ <=? n)%nat;
    try destruct (fn_call fn) as [result|e];
    eexists _, _, _; split; reflexivity.
Qed.

Lemma exec_whatever_the_flag (b : Body) :
  flag_blind b ->
  forall (cls : ComputationClass) (f1 f2 : bool) (n : nat) (m : Machine),
  exists r n' m',
    exec b (Build_PersistentComputation cls f1 n) m
    = (r, Build_PersistentComputation cls f1 n', m')
    /\ exec b (Build_PersistentComputation cls f2 n) m
       = (r, Build_PersistentComputation cls f2 n', m').
Proof.
  induction b as [v|e|fn k IH|k IH|k IH]; intros Hblind cls f1 f2 n m; simpl.
  - eexists _, _, _; split; reflexivity.
  - eexists _, _, _; split; reflexivity.
  - inversion Hblind as [| |fn0 k0 Hblind'| |]; subst.
    destruct (step_whatever_the_flag fn cls f1 f2 n m) as (r & n1 & m1 & -> & ->).
    apply IH, Hblind'.
  - inversion Hblind as [| | |k0 Hsame Hblind'|]; subst.
    assert (forall flag, k flag = k false) as Hk by (intros []; [exact Hsame|reflexivity]).
    rewrite (Hk f1), (Hk f2). apply IH. exact Hblind'.
  - inversion Hblind as [| | | |k0 Hblind']; subst. apply IH, Hblind'.
Qed.

Lemma run_catch_whatever_the_flag (thrown : JsValue) (cls : ComputationClass)
    (f1 f2 : bool) (n : nat) (m : Machine) :
  snd (run_catch thrown (Build_PersistentComputation cls f1 n) m)
  = snd (run_catch thrown (Build_PersistentComputation cls f2 n) m)
  /\ same_but_for_the_flag
       (Throw (fst (run_catch thrown (Build_PersistentComputation cls f1 n) m)))
       (Throw (fst (run_catch thrown (Build_PersistentComputation cls f2 n) m))).
Proof.
  unfold run_catch.
  change (save thrown (Build_PersistentComputation cls f2 n) None)
    with (save thrown (Build_PersistentComputation cls f1 n) None).
  destruct (flushRecoveryData _) as [[u|e] m1]; [|split; reflexivity].
  unfold newComputationFailedError.
  destruct (message_of thrown) as [text|e]; simpl; [|split; reflexivity].
  repeat split.
Qed.

(** X13. The context and [step] never read the recovered flag. So for
    [run] methods that do not depend on the getter, marking the instances
    as recovered changes nothing but the mark: the loop run with the flag
    set and the loop run with it unset leave the same machine (snapshot,
    results, store and trace) and end the same way, with the same value or
    the same error; only the instance carried by a
    [ComputationFailedError] shows the flag. *)
Theorem markRecovered_changes_nothing_else (computationClasses : list Runnable) :
  every_run_method flag_blind computationClasses ->
  forall (input : JsValue) (m : Machine),
    snd (run_loop true computationClasses input m)
    = snd (run_loop false computationClasses input m)
    /\ same_but_for_the_flag
         (fst (run_loop true computationClasses input m))
         (fst (run_loop false computationClasses input m)).
Proof.
  induction computationClasses as [|[cls|instance] rest IH]; intros Hblind input m.
  - simpl. split; reflexivity.
  - apply every_run_method_cons in Hblind as [Hblind1 Hblind].
    rewrite !run_loop_class, !instance_for_eq.
    destruct (exec_whatever_the_flag (run_method cls input) (Hblind1 input) cls true false 0 m)
      as (r & n' & m' & -> & ->).
    destruct r as [v|thrown].
    + change (pushResult (Build_PersistentComputation cls false n') v)
        with (pushResult (Build_PersistentComputation cls true n') v).
      apply IH. exact Hblind.
    + destruct (run_catch_whatever_the_flag thrown cls true false n' m') as (Hm & Hr).
      destruct (run_catch thrown (Build_PersistentComputation cls true n') m').
      destruct (run_catch thrown (Build_PersistentComputation cls false n') m').
      split; [exact Hm|exact Hr].
  - simpl. split; reflexivity.
Qed.

End RecoveredFlag.

(** ** Errors in the snapshot *)

Section SnapshotErrors.
Context `{host : Host}.

(** X14. A computation throws a falsy value, and the snapshot is encoded
    and written. Then the snapshot written and kept is the one the
    computation left, its [error] untouched; and [run] rejects with a
    [TypeError] when the value is [undefined] or [null], and otherwise
    with a [ComputationFailedError] that carries the value as its cause
    and ends its message with what [undefined] prints as. *)
Theorem falsy_error_is_flushed_but_not_recorded (computationClasses : list Runnable)
    (input thrown : JsValue) (recovered : bool) (m m0 m2 : Machine)
    (cls : ComputationClass) (computation : PersistentComputation)
    (data : Bytes) (s3 : Store) :
  let location := recoveryDataLocation (options (runner m2)) in
  maybeRecover m = (Normal recovered, m0) ->
  fails_at recovered computationClasses input m0 cls thrown computation m2 ->
  truthy thrown = false ->
  serialize (recoveryData (runner m2)) = Normal data ->
  t_write location data (store m2) = (Normal tt, s3) ->
  snd (run computationClasses input m)
  = {| runner := runner m2; store := s3; trace := trace m2 ++ [EvWrite location data] |}
  /\ fst (run computationClasses input m)
     = match thrown with
       | VUndefined =>
           Throw (Uncaught
                    (TypeError "Cannot read properties of undefined (reading 'message')"))
       | VNull =>
           Throw (Uncaught
                    (TypeError "Cannot read properties of null (reading 'message')"))
       | _ =>
           Throw (ComputationFailed
                    {| message := "Computation failed on step " +:+ class_name cls
                                  +:+ " due to this error: " +:+ ToString VUndefined;
                       cause := thrown;
                       step_of := computation |})
       end.
Proof.
  intros location Hrec Hfail Hfalsy Hser Hwrite.
  assert (class_of computation = cls) as Hclass.
  { destruct Hfail as (before & after & v & m1 & _ & _ & Hexec).
    destruct (exec_steps_only _ _ _ _ _ _ Hexec) as (_ & Hc & _).
    rewrite Hc, instance_for_eq. reflexivity. }
  unfold run. rewrite Hrec, (run_loop_fails _ _ _ _ _ _ _ _ Hfail).
  clear Hfail. subst location. destruct m2 as [[o d rs] st tr]. simpl in *.
  unfold run_catch. rewrite flushRecoveryData_unfold. simpl.
  unfold save. rewrite Hfalsy. simpl.
  rewrite Hser, Hwrite.
  unfold newComputationFailedError. rewrite Hclass.
  destruct thrown as [| |b|n| | |n|s|items|props|en em]; simpl in *;
    first [discriminate|split; reflexivity].
Qed.


(** X16. When a computation fails after some of its steps, for a class
    whose name reads as a list or as nothing in the snapshot, the snapshot
    the [catch] block hands to the transformer holds, under the name of
    its class, at least as many results as the failing instance's cursor
    counts: the steps it completed are part of what is flushed. When the
    transformer encodes it, that encoding is what the loop writes. *)
Theorem failing_computation_flushes_its_completed_steps (recovered : bool)
    (before after : list Runnable) (cls : ComputationClass) (input v thrown : JsValue)
    (m0 m1 m2 : Machine) (computation : PersistentComputation) :
  own_or_absent (class_name cls) (computations (recoveryData (runner m1))) ->
  run_loop recovered before input m0 = (Normal v, m1) ->
  exec (run_method cls v) (instance_for recovered cls) m1 = (Throw thrown, computation, m2) ->
  let written := recoveryData (save thrown computation None (runner m2)) in
  let m' := snd (run_loop recovered (before ++ AClass cls :: after) input m0) in
  currentStepIndex computation
  <= length (default [] (computations written !! class_name cls))
  /\ recoveryData (runner m') = written
  /\ forall data,
       serialize written = Normal data ->
       In (EvWrite (recoveryDataLocation (options (runner m0))) data) (trace m').
Proof.
  intros Hplain Hbefore Hexec written m'.
  destruct (exec_steps_only _ _ _ _ _ _ Hexec) as (_ & Hclass & _ & _ & Hrange).
  rewrite instance_for_eq in Hclass. simpl in Hclass.
  destruct (save_error_only thrown computation (runner m2)) as (_ & _ & Hc & _).
  split; [|split].
  - subst written. rewrite Hc.
    assert (cursor_in_range computation m2) as Hr.
    { apply Hrange.
      - rewrite instance_for_eq. exact Hplain.
      - unfold cursor_in_range. rewrite instance_for_eq. simpl. lia. }
    unfold cursor_in_range, stepData_of in Hr. rewrite Hclass in Hr. exact Hr.
  - subst m'. rewrite run_loop_app, Hbefore, run_loop_class, Hexec.
    destruct (run_catch thrown computation m2) as [e m3] eqn:Hcatch. simpl.
    destruct (run_catch_spec _ _ _ _ _ Hcatch) as (-> & _). reflexivity.
  - intros data Hser.
    assert (fails_at recovered (before ++ AClass cls :: after) input m0 cls thrown
              computation m2) as Hfail.
    { exists before, after, v, m1. split; [reflexivity|]. split; assumption. }
    destruct (run_loop_fails_events _ _ _ _ _ _ _ _ _ Hfail Hser) as (ids & Ht).
    subst m'. rewrite Ht. apply in_app_iff. right. apply in_app_iff. right. left. reflexivity.
Qed.

(** X17. Flush and recovery compose to a round trip. When the transformer
    encodes the snapshot, the transport takes the write and then answers
    the existence check and the read with what was written, and the
    transformer decodes it to the snapshot, a new context at the same
    location whose dependencies the comparator accepts adopts exactly the
    snapshot that was flushed. *)
Theorem flushed_snapshot_is_recovered (m : Machine) (deps : list (string * JsValue))
    (t : list event) (data : Bytes) (s1 s2 s3 : Store) :
  let opts := options (runner m) in
  let location := recoveryDataLocation opts in
  fromScratch opts = false ->
  serialize (recoveryData (runner m)) = Normal data ->
  t_write location data (store m) = (Normal tt, s1) ->
  t_exists location s1 = (Normal true, s2) ->
  t_read location s2 = (Normal data, s3) ->
  deserialize data = Normal (DecodedObject (recoveryData (runner m))) ->
  sameDeps (VObj deps) (dependencies (recoveryData (runner m))) = true ->
  fst (flushRecoveryData m) = Normal tt
  /\ store (snd (flushRecoveryData m)) = s1
  /\ exists m',
       maybeRecover {| runner := new_context opts deps;
                       store := store (snd (flushRecoveryData m));
                       trace := t |}
       = (Normal true, m')
       /\ recoveryData (runner m') = recoveryData (runner m).
Proof.
  intros opts location Hscratch Hser Hwrite Hexists Hread Hdecode Hsame.
  rewrite flushRecoveryData_unfold. simpl. fold opts location.
  rewrite Hser, Hwrite. simpl. split; [reflexivity|]. split; [reflexivity|].
  eexists. rewrite maybeRecover_unfold by exact Hscratch. simpl.
  fold location. rewrite Hexists, Hread, Hdecode. simpl in Hsame. rewrite Hsame.
  split; reflexivity.
Qed.

End SnapshotErrors.

(** * The further theorems on the test suite's computations *)

(** Three of the default options, and an options object that sets one,
    leaves one [undefined] and brings a key that is no option. *)
Lemma create_overrides_known_defined_keys_only_witness :
  let defaults : gmap string JsValue :=
    {[ "fromScratch" := VBool false; "recoveryDataLocation" := VStr ".recovery";
       "debugLevel" := VNum 0 ]} in
  let given :=
    [("fromScratch", Some (VBool true)); ("debugLevel", None);
     ("retries", Some (VNum 3))] in
  exists options,
    create Object_prototype defaults given = Some options
    /\ options !! "fromScratch" = Some (VBool true)
    /\ options !! "debugLevel" = Some (VNum 0)
    /\ options !! "recoveryDataLocation" = Some (VStr ".recovery")
    /\ options !! "retries" = None.
Proof.
  intros defaults given.
  assert (NoDup given.*1) as Hnodup.
  { apply (bool_decide_unpack _). vm_compute. exact I. }
  destruct (create_overrides_known_defined_keys_only Object_prototype defaults given Hnodup)
    as (options & Hcreate & Hoptions).
  { intros key Hin _. simpl in Hin.
    repeat (apply elem_of_cons in Hin as [-> | Hin]; [reflexivity|]).
    apply elem_of_nil in Hin. contradiction. }
  exists options. split; [exact Hcreate|].
  rewrite !Hoptions. vm_compute. repeat split; reflexivity.
Defined.

(** The test "should save the result of each step". *)
Lemma completed_run_returns_the_last_result_witness :
  let h := transportWithData ∅ in
  let outcome := run (host := h)
                   [AClass OneStepComputation; AClass MultiStepComputation] VUndefined
                   (boot h defaultOptions [] tt) in
  (exists r, fst outcome = Normal r /\ r = getLastResult (runner (snd outcome)))
  /\ exists recovered handed m1 returned computation m2,
       exec (run_method MultiStepComputation handed)
         (instance_for recovered MultiStepComputation) m1
       = (Normal returned, computation, m2)
       /\ getLastResult (runner (snd outcome))
          = Some {| name := "MultiStepComputation"; value := returned |}.
Proof.
  intros h outcome.
  destruct (completed_run_returns_the_last_result (host := h)
              [AClass OneStepComputation; AClass MultiStepComputation] VUndefined
              (boot h defaultOptions [] tt) (snd outcome)
              (getLastResult (runner (snd outcome))) eq_refl) as (Hlast & _ & Hcls).
  split; [eexists; split; reflexivity|].
  destruct (Hcls [AClass OneStepComputation] MultiStepComputation eq_refl)
    as (recovered & m0 & handed & m1 & returned & computation & m2 & _ & _ & Hexec & Hr & _).
  exists recovered, handed, m1, returned, computation, m2.
  split; [exact Hexec|exact Hr].
Defined.

Lemma results_are_found_by_class_name_witness :
  let h := transportWithData ∅ in
  let m' := snd (run (host := h)
                   [AClass OneStepComputation; AClass MultiStepComputation] VUndefined
                   (boot h defaultOptions [] tt)) in
  (exists found,
      getResult OneStepComputation (runner m') = Some found
      /\ name found = "OneStepComputation")
  /\ getResult ThrowingComputation (runner m') = None.
Proof.
  intros h m'.
  destruct (results_are_found_by_class_name (host := h)
              [AClass OneStepComputation; AClass MultiStepComputation] VUndefined
              (boot h defaultOptions [] tt) m'
              (getLastResult (runner m')) eq_refl) as (Hfound & Hget & _).
  split.
  - rewrite Hget. apply Hfound. simpl. left; reflexivity.
  - reflexivity.
Defined.

(** The test "should write recoveryData to a file and be able to recover
    from it": after the rejection the result of [OneStepComputation] is
    there. *)
Lemma failed_run_keeps_the_completed_results_witness :
  let m0 := boot fs_host defaultOptions [] ∅ in
  exists rs,
    results (runner (snd (run_loop (host := fs_host) false
                            ([AClass OneStepComputation] ++ AClass ThrowingComputation :: [])
                            VUndefined m0)))
    = results (runner m0) ++ rs
    /\ map name rs = ["OneStepComputation"].
Proof.
  intros m0.
  eapply (failed_run_keeps_the_completed_results (host := fs_host) false
            [AClass OneStepComputation] [] ThrowingComputation VUndefined);
    reflexivity.
Defined.

Lemma saved_step_is_found_again_witness :
  let self := instance_for false OneStepComputation in
  let c' := save VNull self (Some STEP_DATA) (new_context defaultOptions []) in
  hasRecoveryData self c' = true
  /\ getStepValue self c' = Normal STEP_DATA
  /\ hasRecoveryData (advance self) c' = false.
Proof.
  intros self c'.
  destruct (saved_step_is_found_again self STEP_DATA (new_context defaultOptions []))
    as (_ & H1 & H2 & H3 & _).
  - intros _. reflexivity.
  - reflexivity.
  - split; [exact H1|]. split; [exact H2|exact H3].
Defined.

(** The test "should recalculate step if there is no recovered data for
    the exact step": one stored result, two steps, one callback. *)
Lemma run_method_calls_only_the_missing_steps_witness :
  let h := transportWithData ∅ in
  let m : @Machine h :=
    {| runner := set_recoveryData snapshot_with_false (new_context defaultOptions []);
       store := tt; trace := [] |} in
  let outcome := exec (run_method MultiStepComputation VUndefined)
                   (instance_for true MultiStepComputation) m in
  count is_call (trace (snd outcome)) = 1
  /\ length (default [] (computations (recoveryData (runner (snd outcome)))
                           !! "MultiStepComputation")) = 2.
Proof.
  intros h m outcome.
  destruct (run_method_calls_only_the_missing_steps (host := h) true MultiStepComputation
              VUndefined m (snd outcome) (snd (fst outcome)) (fst (fst outcome)))
    as (Hmax & Hcalls).
  - cbn. run_method_shape.
  - intros _. reflexivity.
  - reflexivity.
  - split; [exact Hcalls|exact Hmax].
Defined.

Lemma run_method_touches_only_its_own_key_witness :
  let h := transportWithData ∅ in
  let m : @Machine h :=
    {| runner := set_recoveryData snapshot_with_false (new_context defaultOptions []);
       store := tt; trace := [] |} in
  let outcome := exec (run_method OneStepComputation VUndefined)
                   (instance_for true OneStepComputation) m in
  computations (recoveryData (runner (snd outcome))) !! "MultiStepComputation"
  = Some [VBool false].
Proof.
  intros h m outcome.
  rewrite (run_method_touches_only_its_own_key (host := h)
             (run_method OneStepComputation VUndefined)
             (instance_for true OneStepComputation) (snd (fst outcome)) m (snd outcome)
             (fst (fst outcome)) "MultiStepComputation" eq_refl).
  - reflexivity.
  - discriminate.
Defined.

(** The failing run of the test suite, with and without the mark. *)
Lemma markRecovered_changes_nothing_else_witness :
  let m := boot fs_host defaultOptions [] ∅ in
  let cs := [AClass MultiStepComputation; AClass ThrowingComputation] in
  snd (run_loop (host := fs_host) true cs VUndefined m)
  = snd (run_loop (host := fs_host) false cs VUndefined m).
Proof.
  intros m cs.
  destruct (markRecovered_changes_nothing_else (host := fs_host) cs) with
    (input := VUndefined) (m := m) as [Hsame _].
  - every_run_method_shape.
  - exact Hsame.
Defined.

(** [MultiStepComputation] declared under the name [hasOwnProperty], on a
    new context: the first step is skipped with [undefined], the second
    is computed and rejected by [save]. *)
Lemma inherited_name_is_replayed_then_rejected_witness :
  let h := transportWithData ∅ in
  let m : @Machine h := boot h defaultOptions [] tt in
  let self := instance_for false hasOwnPropertyComputation in
  step stepOneDataProvider self m = (Normal VUndefined, advance self, m)
  /\ exists m',
       step stepTwoDataProvider (advance self) m
       = (Throw (TypeError
                   "this.recoveryData.computations[step.constructor.name].push is not a function"),
          advance self, m')
       /\ trace m' = [EvCall 2].
Proof.
  intros h m self. split.
  - destruct (inherited_name_is_replayed_then_rejected (host := h) stepOneDataProvider
                self m (InheritedFunction 1) eq_refl eq_refl) as [Hbelow _].
    apply Hbelow. vm_compute. lia.
  - destruct (inherited_name_is_replayed_then_rejected (host := h) stepTwoDataProvider
                (advance self) m (InheritedFunction 1) eq_refl eq_refl) as [_ Hfrom].
    destruct (Hfrom (le_n 1) STEP_DATA_1 eq_refl) as (m' & Hstep & Htrace & _).
    exists m'. split; [exact Hstep|exact Htrace].
Defined.

(** A [run] method that throws [false]. *)
Lemma falsy_error_is_flushed_but_not_recorded_witness :
  let h := transportWithData ∅ in
  let Falsy := {| class_name := "FalsyComputation";
                  run_method := fun _ => Raise (VBool false) |} in
  let outcome := run (host := h) [AClass Falsy] VUndefined (boot h defaultOptions [] tt) in
  error (recoveryData (runner (snd outcome))) = None
  /\ exists failure,
       fst outcome = Throw (ComputationFailed failure)
       /\ cause failure = VBool false
       /\ message failure
          = "Computation failed on step FalsyComputation due to this error: undefined".
Proof.
  intros h Falsy outcome.
  set (m := boot h defaultOptions [] tt).
  set (m0 := snd (maybeRecover (host := h) m)).
  edestruct (falsy_error_is_flushed_but_not_recorded (host := h) [AClass Falsy]
               VUndefined (VBool false) true m m0 m0 Falsy (instance_for true Falsy))
    as (Hm & Hr).
  - reflexivity.
  - exists [], [], VUndefined, m0. split; [reflexivity|]. split; reflexivity.
  - reflexivity.
  - reflexivity.
  - reflexivity.
  - split; [exact (f_equal (fun x => error (recoveryData (runner x))) Hm)|].
    eexists. split; [exact Hr|]. split; reflexivity.
Defined.


(** [MultiStepComputation] with a second callback that throws: the first
    step's result is in what is written. *)
Lemma failing_computation_flushes_its_completed_steps_witness :
  let Half := {| class_name := "HalfDone";
                 run_method := fun _ =>
                   AwaitStep stepOneDataProvider (fun _ =>
                   AwaitStep {| fn_id := 9; fn_call := Throw EIO |} Return) |} in
  let m0 := boot fs_host defaultOptions [] ∅ in
  let m' := snd (run_loop (host := fs_host) false ([] ++ AClass Half :: []) VUndefined m0) in
  1 <= length (default [] (computations (recoveryData (runner m')) !! "HalfDone"))
  /\ store m' !! ".recovery" = Some (DecodedObject (recoveryData (runner m'))).
Proof.
  intros Half m0 m'.
  edestruct (failing_computation_flushes_its_completed_steps (host := fs_host) false
               [] [] Half VUndefined VUndefined EIO m0 m0)
    as (Hlen & Hwritten & _); [intros _; reflexivity|reflexivity|reflexivity|].
  split.
  - fold m' in Hwritten. rewrite Hwritten. exact Hlen.
  - reflexivity.
Defined.

(** The default options: flush, then a new context. *)
Lemma flushed_snapshot_is_recovered_witness :
  let m := snd (run (host := fs_host) [AClass OneStepComputation] VUndefined
                  (boot fs_host defaultOptions [] ∅)) in
  exists m',
    maybeRecover (host := fs_host)
      {| runner := new_context defaultOptions [];
         store := store (snd (flushRecoveryData m));
         trace := [] |}
    = (Normal true, m')
    /\ recoveryData (runner m') = recoveryData (runner m).
Proof.
  intros m.
  edestruct (flushed_snapshot_is_recovered (host := fs_host) m [] [])
    as (_ & _ & Hrec); [reflexivity..|].
  exact Hrec.
Defined.
